(** * A shallow embedding of [formant_client.py]

    The client talks to a fleet-management HTTP API.  Three pieces carry the
    design: the retry decorator [formant_client_retry_on_failure], the cached
    authentication headers of [FormantClient], and the offset-based pagination
    of [get_task_list_for_device_sync].

    Python code is embedded as functions in a monad with three effects:
    mutable state (the client object and the history of HTTP requests),
    exceptions, and the entries written through [logging.warning].  The
    [while 1] loop of the paginated fetch is given fuel. *)

From stdpp Require Import gmap strings list pretty.

Open Scope Z_scope.

(** ** Values *)

(** Decoded JSON, as [json.loads] produces it.  An object is kept as the list
    of its entries in document order; lookups take the first entry for a key. *)
#[warnings="-register-all"]
Inductive json : Type :=
| JNull
| JBool (b : bool)
| JInt (n : Z)
| JFloat (literal : string)
| JStr (s : string)
| JArr (elements : list json)
| JObj (entries : list (string * json)).

(** ** Exceptions *)

(** [class FormantClientRequestError(Exception)] with its two fields. *)
Record FormantClientRequestError : Type := MkFormantClientRequestError {
  message : string;
  retryable : bool
}.

(** [__init__(self, message, retryable=True)]: [None] stands for a call that
    does not pass the second argument. *)
Definition FormantClientRequestError_init
    (message : string) (retryable : option bool) : FormantClientRequestError :=
  {| message := message; retryable := default true retryable |}.

(** [__str__] *)
Definition FormantClientRequestError_str (e : FormantClientRequestError) : string :=
  "FormantClientRequestError: " +:+ message e.

(** The other exceptions that the statements of the module can raise. *)
Inductive PyError : Type :=
| JSONDecodeError
| KeyError (key : string)
| TypeError
| AttributeError (attribute : string)
| RequestException.

Inductive exn : Type :=
| Builtin (e : PyError)
| FormantError (e : FormantClientRequestError).

(** ** The monad *)

Inductive Outcome (A : Type) : Type :=
| Return (a : A)
| Raise (e : exn)
| OutOfFuel.
Arguments Return {A} a.
Arguments Raise {A} e.
Arguments OutOfFuel {A}.

(** A computation maps the state before to the outcome, the state after and
    the warnings it logged, oldest first. *)
Definition M (St A : Type) : Type := St -> Outcome A * St * list string.

Definition ret {St A} (a : A) : M St A := fun s => (Return a, s, []).

Definition bind {St A B} (m : M St A) (k : A -> M St B) : M St B := fun s =>
  match m s with
  | (Return a, s1, l1) => let '(o, s2, l2) := k a s1 in (o, s2, l1 ++ l2)
  | (Raise e, s1, l1) => (Raise e, s1, l1)
  | (OutOfFuel, s1, l1) => (OutOfFuel, s1, l1)
  end.

Definition raise {St A} (e : exn) : M St A := fun s => (Raise e, s, []).

Definition out_of_fuel {St A} : M St A := fun s => (OutOfFuel, s, []).

Definition gets {St A} (f : St -> A) : M St A := fun s => (Return (f s), s, []).

Definition modify {St} (f : St -> St) : M St unit := fun s => (Return tt, f s, []).

(** [logging.warning(msg)] *)
Definition logging_warning {St} (msg : string) : M St unit :=
  fun s => (Return tt, s, [msg]).

(** [try: m  except <class> as e: handler e], where [caught] says which
    exceptions the except clause matches. *)
Definition try_except {St A} (m : M St A) (caught : exn -> bool)
    (handler : exn -> M St A) : M St A := fun s =>
  match m s with
  | (Raise e, s1, l1) =>
      if caught e
      then let '(o, s2, l2) := handler e s1 in (o, s2, l1 ++ l2)
      else (Raise e, s1, l1)
  | r => r
  end.

Declare Scope py_scope.
Delimit Scope py_scope with py.
Notation "x <- m ;; k" := (bind m (fun x => k))
  (at level 20, m at level 99, k at level 200, only parsing) : py_scope.
Notation "m ;; k" := (bind m (fun _ => k))
  (at level 100, k at level 200, right associativity, only parsing) : py_scope.
Open Scope py_scope.

(** [except FormantClientRequestError] and [except Exception]. *)
Definition is_FormantClientRequestError (e : exn) : bool :=
  match e with FormantError _ => true | Builtin _ => false end.

Definition is_Exception (e : exn) : bool := true.

(** ** The retry decorator *)

Definition NUM_RETRIES : Z := 5.

Section Retry.
Context {St A : Type}.
Variable max_retries : Z.
Variable propegrate_error : bool.
Variable func : M St A.

Definition retry_warning (e : FormantClientRequestError) (i : Z) : string :=
  "Request failed with error: " +:+ FormantClientRequestError_str e
    +:+ ". Retrying (" +:+ pretty (i + 1) +:+ "/" +:+ pretty max_retries +:+ ")".

Definition retries_exhausted : FormantClientRequestError :=
  FormantClientRequestError_init
    ("Request failed after " +:+ pretty max_retries +:+ " retries") None.

(** The [for i in range(max_retries)] loop of [wrapper], with [remaining]
    iterations to go, followed by the code after the loop.  The wrapper's
    result is [Some] of what [func] returned, or [None] for Python's [None]
    when exhaustion is not propagated. *)
Fixpoint wrapper_loop (remaining : nat) (i : Z) : M St (option A) :=
  match remaining with
  | O =>
      if propegrate_error
      then raise (FormantError retries_exhausted)
      else ret None
  | S remaining' =>
      try_except (a <- func ;; ret (Some a)) is_FormantClientRequestError
        (fun e =>
           match e with
           | FormantError e =>
               if negb (retryable e)
               then raise (FormantError e)
               else logging_warning (retry_warning e i) ;;
                    wrapper_loop remaining' (i + 1)
           | Builtin e => raise (Builtin e)
           end)
  end.

Definition formant_client_retry_on_failure : M St (option A) :=
  wrapper_loop (Z.to_nat max_retries) 0.
End Retry.

(** ** Operations of the Python runtime on decoded JSON *)

Fixpoint assoc (key : string) (entries : list (string * json)) : option json :=
  match entries with
  | [] => None
  | (k, v) :: rest => if String.eqb k key then Some v else assoc key rest
  end.

(** [v[key]] for a string key. *)
Definition getitem {St} (v : json) (key : string) : M St json :=
  match v with
  | JObj entries =>
      match assoc key entries with
      | Some x => ret x
      | None => raise (Builtin (KeyError key))
      end
  | _ => raise (Builtin TypeError)
  end.

Fixpoint characters (s : string) : list json :=
  match s with
  | EmptyString => []
  | String c rest => JStr (String c EmptyString) :: characters rest
  end.

(** The elements that iterating over [v] yields, as [list.extend(v)] does. *)
Definition iterate {St} (v : json) : M St (list json) :=
  match v with
  | JArr elements => ret elements
  | JStr s => ret (characters s)
  | JObj entries => ret (map (fun kv => JStr (fst kv)) entries)
  | _ => raise (Builtin TypeError)
  end.

(** [len(v)] *)
Definition len {St} (v : json) : M St Z :=
  match v with
  | JArr elements => ret (Z.of_nat (length elements))
  | JStr s => ret (Z.of_nat (String.length s))
  | JObj entries => ret (Z.of_nat (length entries))
  | _ => raise (Builtin TypeError)
  end.

(** ** The HTTP transport *)

(** The keyword arguments of one [requests.post] call. *)
Record Request : Type := MkRequest {
  url : string;
  headers : option (gmap string string);
  json_arg : json
}.

(** What the client reads of a [requests.Response]: [status_code], [text]
    and [json()], the latter being [None] when the body does not decode. *)
Record Response : Type := MkResponse {
  status_code : Z;
  text : string;
  json_body : option json
}.

Inductive PostResult : Type :=
| Responded (r : Response)
| ConnectionFailed.

(** What the environment supplies: the backend reached through
    [requests.post], which answers a request knowing the requests made before
    it, and the text that [str()] gives for values whose rendering the module
    does not define itself. *)
Class Runtime : Type := {
  http_post : list Request -> Request -> PostResult;
  str_json : json -> string;
  str_PyError : PyError -> string
}.

(** ** The client *)

Record FormantClient : Type := MkFormantClient {
  _admin_api_endpoint : string;
  _email : string;
  _password : string;
  _authenticated_headers : gmap string string
}.

(** [FormantClient.__init__] *)
Definition FormantClient_init (admin_api_endpoint formant_email formant_password : string)
    : FormantClient :=
  {| _admin_api_endpoint := admin_api_endpoint;
     _email := formant_email;
     _password := formant_password;
     _authenticated_headers := ∅ |}.

(** The mutable state: the client object and the requests sent so far,
    oldest first. *)
Record World : Type := MkWorld {
  self : FormantClient;
  sent : list Request
}.

(** The client object is [client], whatever has been sent. *)
Definition is_client (client : FormantClient) (w : World) : Prop := self w = client.

Definition set_authenticated_headers (h : gmap string string) (w : World) : World :=
  {| self := {| _admin_api_endpoint := _admin_api_endpoint (self w);
                _email := _email (self w);
                _password := _password (self w);
                _authenticated_headers := h |};
     sent := sent w |}.

Definition record_request (req : Request) (w : World) : World :=
  {| self := self w; sent := sent w ++ [req] |}.

Definition record_requests (reqs : list Request) (w : World) : World :=
  {| self := self w; sent := sent w ++ reqs |}.

Section Client.
Context `{Runtime}.

(** [requests.post(url=..., headers=..., json=...)] *)
Definition requests_post (url : string) (headers : option (gmap string string))
    (json_arg : json) : M World Response := fun w =>
  let req := {| url := url; headers := headers; json_arg := json_arg |} in
  match http_post (sent w) req with
  | Responded r => (Return r, record_request req w, [])
  | ConnectionFailed => (Raise (Builtin RequestException), record_request req w, [])
  end.

(** [response.json()] *)
Definition Response_json (response : Response) : M World json :=
  match json_body response with
  | Some v => ret v
  | None => raise (Builtin JSONDecodeError)
  end.

(** [response.status]: a [requests.Response] has [status_code], not
    [status], so reading the attribute raises. *)
Definition Response_status (response : Response) : M World Z :=
  raise (Builtin (AttributeError "status")).

(** [str(v)] inside an f-string. *)
Definition str_of_json (v : json) : string :=
  match v with
  | JStr s => s
  | _ => str_json v
  end.

(** [str(e)] for a caught exception. *)
Definition str_of_exn (e : exn) : string :=
  match e with
  | FormantError e => FormantClientRequestError_str e
  | Builtin e => str_PyError e
  end.

Definition _get_get_admin_endpoint (path : string) : M World string :=
  gets (fun w => _admin_api_endpoint (self w) +:+ path).

(** The undecorated body of [_authenticate]. *)
Definition _authenticate_body : M World unit :=
  cached <- gets (fun w => _authenticated_headers (self w)) ;;
  if (0 <? size cached)%nat then ret tt else
  email <- gets (fun w => _email (self w)) ;;
  password <- gets (fun w => _password (self w)) ;;
  let body := JObj [("email", JStr email);
                    ("password", JStr password);
                    ("tokenExpirationSeconds", JInt 86400)] in
  endpoint <- _get_get_admin_endpoint "/auth/login" ;;
  response <- requests_post endpoint None body ;;
  if status_code response =? 200 then
    response_json <- Response_json response ;;
    authentication <- getitem response_json "authentication" ;;
    accessToken <- getitem authentication "accessToken" ;;
    modify (set_authenticated_headers
              {[ "authorization" := "Bearer " +:+ str_of_json accessToken;
                 "content-type" := "application/json" ]})
  else
    raise (FormantError (FormantClientRequestError_init
             ("Failed to authenticate... " +:+ text response) None)).

Definition _authenticate : M World (option unit) :=
  formant_client_retry_on_failure NUM_RETRIES true _authenticate_body.

Definition _get_authenticated_headers : M World (gmap string string) :=
  _authenticate ;;
  gets (fun w => _authenticated_headers (self w)).

(** The undecorated body of [query_robots]. *)
Definition query_robots_body (tags : json) (enabled_only : bool) : M World json :=
  let body := if enabled_only
              then JObj [("tags", tags); ("enabled", JBool true)]
              else JObj [("tags", tags)] in
  endpoint <- _get_get_admin_endpoint "/devices/query" ;;
  auth <- _get_authenticated_headers ;;
  response <- requests_post endpoint (Some auth) body ;;
  if status_code response =? 200 then
    try_except
      (decoded <- Response_json response ;; getitem decoded "items")
      is_Exception
      (fun e => raise (FormantError (FormantClientRequestError_init
                         ("Failed to query robots: " +:+ str_of_exn e) None)))
  else
    raise (FormantError (FormantClientRequestError_init
             ("Failed to query robots... " +:+ text response) None)).

Definition query_robots (tags : json) (enabled_only : bool) : M World (option json) :=
  formant_client_retry_on_failure NUM_RETRIES true (query_robots_body tags enabled_only).

Definition page_size : Z := 100.

Definition events_params (deviceId : string) (page_offset : Z) : json :=
  JObj [("eventTypes", JArr [JStr "task-summary"]);
        ("count", JInt page_size);
        ("offset", JInt page_offset);
        ("deviceIds", JArr [JStr deviceId])].

(** The [while 1] loop of [get_task_list_for_device_sync]: one unit of
    fuel per iteration. *)
Fixpoint fetch_pages (fuel : nat) (endpoint deviceId : string) (page_offset : Z)
    (task_summaries : list json) : M World (list json) :=
  match fuel with
  | O => out_of_fuel
  | S fuel' =>
      let params := events_params deviceId page_offset in
      auth <- _get_authenticated_headers ;;
      response <- requests_post endpoint (Some auth) params ;;
      if negb (status_code response =? 200) then
        status <- Response_status response ;;
        raise (FormantError (FormantClientRequestError_init
                 ("Failed to get task summaries... code: " +:+ pretty status
                    +:+ ". error: " +:+ text response) None))
      else
        decoded <- Response_json response ;;
        items <- getitem decoded "items" ;;
        new_items <- iterate items ;;
        let task_summaries := task_summaries ++ new_items in
        decoded <- Response_json response ;;
        items <- getitem decoded "items" ;;
        count <- len items ;;
        if count <? page_size then ret task_summaries
        else fetch_pages fuel' endpoint deviceId (page_offset + page_size) task_summaries
  end.

(** The undecorated body of [get_task_list_for_device_sync]. *)
Definition get_task_list_for_device_sync_body (fuel : nat) (deviceId : string)
    : M World (list json) :=
  endpoint <- _get_get_admin_endpoint "/events/query" ;;
  fetch_pages fuel endpoint deviceId 0 [].

Definition get_task_list_for_device_sync (fuel : nat) (deviceId : string)
    : M World (option (list json)) :=
  formant_client_retry_on_failure NUM_RETRIES true
    (get_task_list_for_device_sync_body fuel deviceId).
End Client.

(** ** Runs of the retry loop *)

Section RetryRuns.
Context {St A : Type}.
Variable max_retries : Z.
Variable func : M St A.

(** [fails_with trace s s']: invoked repeatedly from state [s], [func]
    fails with a retryable [FormantClientRequestError] once per entry of
    [trace] and leaves state [s'].  An entry holds the error of one
    invocation and the warnings that the invocation logged itself. *)
Inductive fails_with : list (FormantClientRequestError * list string) -> St -> St -> Prop :=
| fails_nil s : fails_with [] s s
| fails_cons e l trace s s1 s2 :
    func s = (Raise (FormantError e), s1, l) ->
    retryable e = true ->
    fails_with trace s1 s2 ->
    fails_with ((e, l) :: trace) s s2.

(** What ends up in the log while the wrapper goes through [trace],
    starting at loop index [i]: each invocation's own entries, then the
    wrapper's warning for it. *)
Fixpoint retry_log (i : Z) (trace : list (FormantClientRequestError * list string))
    : list string :=
  match trace with
  | [] => []
  | (e, l) :: rest => l ++ retry_warning max_retries e i :: retry_log (i + 1) rest
  end.

(** The entries of a trace that the invocations logged themselves. *)
Definition own_log (trace : list (FormantClientRequestError * list string)) : list string :=
  concat (map snd trace).
End RetryRuns.

(** ** Properties of computations *)

(** [m] keeps the state inside [I]. *)
Definition preserves {St A : Type} (I : St -> Prop) (m : M St A) : Prop :=
  forall s, I s -> I (m s).1.2.

(** The outcome is not a [FormantClientRequestError] marked non-retryable. *)
Definition no_fatal_error {A : Type} (o : Outcome A) : Prop :=
  match o with
  | Raise (FormantError e) => retryable e = true
  | _ => True
  end.

(** Whatever the state, [m] never raises a non-retryable
    [FormantClientRequestError]: wrapped by the retry decorator, it never
    sends the wrapper into its [if not e.retryable: raise e] branch. *)
Definition never_fatal {St A : Type} (m : M St A) : Prop :=
  forall s, no_fatal_error (m s).1.1.

(** ** The methods of the client *)

(** Every method that [class FormantClient] defines, with its arguments. *)
Inductive Method : Type :=
| Call_get_get_admin_endpoint (path : string)
| Call_authenticate
| Call_get_authenticated_headers
| Call_query_robots (tags : json) (enabled_only : bool)
| Call_get_task_list_for_device_sync (fuel : nat) (deviceId : string).

(** Calling a method for its effect on the client, dropping what it returns. *)
Definition call `{Runtime} (m : Method) : M World unit :=
  match m with
  | Call_get_get_admin_endpoint path => _get_get_admin_endpoint path ;; ret tt
  | Call_authenticate => _authenticate ;; ret tt
  | Call_get_authenticated_headers => _get_authenticated_headers ;; ret tt
  | Call_query_robots tags enabled_only => query_robots tags enabled_only ;; ret tt
  | Call_get_task_list_for_device_sync fuel deviceId =>
      get_task_list_for_device_sync fuel deviceId ;; ret tt
  end.

(** ** Requests that the client builds *)

Definition login_request (w : World) : Request :=
  {| url := _admin_api_endpoint (self w) +:+ "/auth/login";
     headers := None;
     json_arg := JObj [("email", JStr (_email (self w)));
                       ("password", JStr (_password (self w)));
                       ("tokenExpirationSeconds", JInt 86400)] |}.

Definition devices_query_request (endpoint : string) (auth : gmap string string)
    (tags : json) (enabled_only : bool) : Request :=
  {| url := endpoint +:+ "/devices/query";
     headers := Some auth;
     json_arg := if enabled_only
                 then JObj [("tags", tags); ("enabled", JBool true)]
                 else JObj [("tags", tags)] |}.

Definition page_request (endpoint : string) (auth : gmap string string)
    (deviceId : string) (page_offset : Z) : Request :=
  {| url := endpoint +:+ "/events/query";
     headers := Some auth;
     json_arg := events_params deviceId page_offset |}.

(** The requests for [n] consecutive pages from [page_offset] on. *)
Fixpoint page_requests (endpoint : string) (auth : gmap string string)
    (deviceId : string) (page_offset : Z) (n : nat) : list Request :=
  match n with
  | O => []
  | S n' => page_request endpoint auth deviceId page_offset
            :: page_requests endpoint auth deviceId (page_offset + page_size) n'
  end.

(** The value of [response.json()["items"]] when that expression evaluates. *)
Definition items_of (r : Response) : option json :=
  match json_body r with
  | Some (JObj entries) => assoc "items" entries
  | _ => None
  end.

(** The value of [response.json()['authentication']['accessToken']] when
    that expression evaluates. *)
Definition access_token (r : Response) : option json :=
  match json_body r with
  | Some (JObj entries) =>
      match assoc "authentication" entries with
      | Some (JObj inner) => assoc "accessToken" inner
      | _ => None
      end
  | _ => None
  end.

(** The headers that a login answered with [token] stores. *)
Definition bearer_headers `{Runtime} (token : json) : gmap string string :=
  {[ "authorization" := "Bearer " +:+ str_of_json token;
     "content-type" := "application/json" ]}.

(** The client holds cached headers. *)
Definition authenticated (w : World) : Prop :=
  (0 < size (_authenticated_headers (self w)))%nat.

(** The exception that [response.json()["items"]] raises when it does not
    evaluate. *)
Definition items_failure (r : Response) : PyError :=
  match json_body r with
  | None => JSONDecodeError
  | Some (JObj _) => KeyError "items"
  | Some _ => TypeError
  end.

(** [serves hist endpoint auth deviceId page_offset pages]: asked for
    consecutive pages from [page_offset] on, after the requests [hist], the
    backend answers 200 with the lists [pages] as items, one per request. *)
Fixpoint serves `{Runtime} (hist : list Request) (endpoint : string)
    (auth : gmap string string) (deviceId : string)
    (page_offset : Z) (pages : list (list json)) : Prop :=
  match pages with
  | [] => True
  | p :: rest =>
      (exists r, http_post hist (page_request endpoint auth deviceId page_offset) = Responded r
                 /\ status_code r = 200 /\ items_of r = Some (JArr p))
      /\ serves (hist ++ [page_request endpoint auth deviceId page_offset]) endpoint auth
           deviceId (page_offset + page_size) rest
  end.

(** ** Sample operations and backends *)

(** An operation counting its invocations: the first [k] fail with a
    retryable error, every later one returns [v]. *)
Definition flaky (k : nat) (v : string) : M nat string := fun calls =>
  if (calls <? k)%nat
  then (Raise (FormantError (FormantClientRequestError_init "transient" None)), S calls, [])
  else (Return v, S calls, []).

(** An operation that fails for good at its invocation number [k], after
    retryable failures. *)
Definition fatal_at (k : nat) : M nat string := fun calls =>
  if (calls <? k)%nat
  then (Raise (FormantError (FormantClientRequestError_init "transient" None)), S calls, [])
  else (Raise (FormantError (FormantClientRequestError_init "fatal" (Some false))), S calls, []).

(** An operation that crashes with a [TypeError] at its invocation number
    [k], after retryable failures. *)
Definition crashing_at (k : nat) : M nat string := fun calls =>
  if (calls <? k)%nat
  then (Raise (FormantError (FormantClientRequestError_init "transient" None)), S calls, [])
  else (Raise (Builtin TypeError), S calls, []).

Definition sample_endpoint : string := "https://api.example".

Definition sample_client : FormantClient :=
  FormantClient_init sample_endpoint "ops@example.com" "secret".

Definition fresh_world : World := {| self := sample_client; sent := [] |}.

Definition sample_login_response : Response :=
  {| status_code := 200;
     text := "{...}";
     json_body := Some (JObj [("authentication", JObj [("accessToken", JStr "t0k3n")])]) |}.

Definition sample_headers : gmap string string :=
  {[ "authorization" := "Bearer t0k3n"; "content-type" := "application/json" ]}.

(** The world of the sample client once it has logged in. *)
Definition logged_in_world : World :=
  {| self := {| _admin_api_endpoint := sample_endpoint;
                _email := "ops@example.com";
                _password := "secret";
                _authenticated_headers := sample_headers |};
     sent := [] |}.

Definition items_response (items : list json) : Response :=
  {| status_code := 200; text := "{...}"; json_body := Some (JObj [("items", JArr items)]) |}.

Definition requested_offset (req : Request) : nat :=
  match json_arg req with
  | JObj entries =>
      match assoc "offset" entries with
      | Some (JInt n) => Z.to_nat n
      | _ => O
      end
  | _ => O
  end.

(** A backend holding [events]: login succeeds, the device query lists two
    devices, and the event query serves [events] in pages of at most 100. *)
Definition paging_backend (events : list json) (hist : list Request) (req : Request)
    : PostResult :=
  if String.eqb (url req) (sample_endpoint +:+ "/auth/login")
  then Responded sample_login_response
  else if String.eqb (url req) (sample_endpoint +:+ "/devices/query")
  then Responded (items_response [JObj [("id", JStr "dev-1")]; JObj [("id", JStr "dev-2")]])
  else if String.eqb (url req) (sample_endpoint +:+ "/events/query")
  then Responded (items_response (take 100 (drop (requested_offset req) events)))
  else Responded {| status_code := 404; text := "not found"; json_body := None |}.

(** A backend that is down: every request gets a 503. *)
Definition unavailable_backend (hist : list Request) (req : Request) : PostResult :=
  Responded {| status_code := 503; text := "service unavailable"; json_body := None |}.

(** A backend whose login works while its queries answer 200 with a body
    that is not JSON. *)
Definition garbled_backend (hist : list Request) (req : Request) : PostResult :=
  if String.eqb (url req) (sample_endpoint +:+ "/auth/login")
  then Responded sample_login_response
  else Responded {| status_code := 200; text := "<html>"; json_body := None |}.

(** A backend whose login works while its queries answer 500. *)
Definition broken_backend (hist : list Request) (req : Request) : PostResult :=
  if String.eqb (url req) (sample_endpoint +:+ "/auth/login")
  then Responded sample_login_response
  else Responded {| status_code := 500; text := "boom"; json_body := None |}.

(** A rendering of values and built-in exceptions that names their kind. *)
Definition sample_str_json (v : json) : string :=
  match v with
  | JNull => "None"
  | JBool true => "True"
  | JBool false => "False"
  | JInt n => pretty n
  | JFloat literal => literal
  | JStr s => s
  | JArr _ => "[...]"
  | JObj _ => "{...}"
  end.

Definition sample_str_PyError (e : PyError) : string :=
  match e with
  | JSONDecodeError => "Expecting value: line 1 column 1 (char 0)"
  | KeyError key => "'" +:+ key +:+ "'"
  | TypeError => "object is not subscriptable"
  | AttributeError attribute => "'Response' object has no attribute '" +:+ attribute +:+ "'"
  | RequestException => "connection failed"
  end.

Definition sample_runtime (backend : list Request -> Request -> PostResult) : Runtime :=
  {| http_post := backend; str_json := sample_str_json; str_PyError := sample_str_PyError |}.

(** [n] numbered events. *)
Definition numbered_events (n : nat) : list json :=
  map (fun i => JInt (Z.of_nat i)) (seq 0 n).

(** ** Sequences of calls *)

(** The world after calling the methods [ms] one after the other, whether a
    call returns or raises. *)
Fixpoint run_calls `{Runtime} (ms : list Method) (w : World) : World :=
  match ms with
  | [] => w
  | m :: rest => run_calls rest (call m w).1.2
  end.

(** The account data that the constructor stores are those of [c]. *)
Definition same_account (c : FormantClient) (w : World) : Prop :=
  _admin_api_endpoint (self w) = _admin_api_endpoint c
  /\ _email (self w) = _email c
  /\ _password (self w) = _password c.

(** [headers] holds a Bearer authorization. *)
Definition has_bearer (headers : gmap string string) : Prop :=
  exists token, headers !! "authorization" = Some ("Bearer " +:+ token).

(** A request is either a login POST to the endpoint [base], sent without
    headers, or carries a Bearer authorization header. *)
Definition login_or_authorized (base : string) (req : Request) : Prop :=
  match headers req with
  | None => url req = base +:+ "/auth/login"
  | Some h => has_bearer h
  end.

(** The client of endpoint [base] has sent nothing but logins and authorized
    requests, and its cache is empty or holds a Bearer authorization. *)
Definition disciplined (base : string) (w : World) : Prop :=
  _admin_api_endpoint (self w) = base
  /\ (_authenticated_headers (self w) = ∅ \/ has_bearer (_authenticated_headers (self w)))
  /\ Forall (login_or_authorized base) (sent w).

(** ** Answers that make the client crash *)

(** The exception that [response_json['authentication']['accessToken']]
    raises when it does not evaluate. *)
Definition access_token_failure (r : Response) : PyError :=
  match json_body r with
  | None => JSONDecodeError
  | Some (JObj entries) =>
      match assoc "authentication" entries with
      | None => KeyError "authentication"
      | Some (JObj _) => KeyError "accessToken"
      | Some _ => TypeError
      end
  | Some _ => TypeError
  end.

(** The exception with which a login attempt crashes, if its answer makes
    it crash: a transport failure, or a 200 without a token in its body. *)
Definition login_crash (answer : PostResult) : option PyError :=
  match answer with
  | ConnectionFailed => Some RequestException
  | Responded r =>
      if status_code r =? 200
      then match access_token r with
           | Some _ => None
           | None => Some (access_token_failure r)
           end
      else None
  end.

(** The exception with which the fetch crashes on a page answered 200, if
    the page makes it crash: no ["items"], or items that cannot be iterated. *)
Definition page_crash (r : Response) : option PyError :=
  match items_of r with
  | None => Some (items_failure r)
  | Some (JArr _) | Some (JStr _) | Some (JObj _) => None
  | Some _ => Some TypeError
  end.

(** The elements that iterating over a JSON value yields, when it can be
    iterated: the elements of an array, the characters of a string, the keys
    of an object. *)
Definition elements_of (v : json) : option (list json) :=
  match v with
  | JArr elements => Some elements
  | JStr s => Some (characters s)
  | JObj entries => Some (map (fun kv => JStr (fst kv)) entries)
  | _ => None
  end.

(** A backend whose event query answers with a string as ["items"]. *)
Definition stringly_backend (hist : list Request) (req : Request) : PostResult :=
  Responded {| status_code := 200; text := "{...}";
               json_body := Some (JObj [("items", JStr "none")]) |}.

(** A backend that answers 503 to its first [k] requests and then behaves
    like the paging backend without events. *)
Definition recovering_backend (k : nat) (hist : list Request) (req : Request) : PostResult :=
  if (length hist <? k)%nat
  then Responded {| status_code := 503; text := "service unavailable"; json_body := None |}
  else paging_backend [] hist req.

(** A backend whose login answers 200 without an access token. *)
Definition tokenless_backend (hist : list Request) (req : Request) : PostResult :=
  Responded {| status_code := 200; text := "{...}";
               json_body := Some (JObj [("authentication", JObj [])]) |}.

(** A backend that answers every request with a page of 100 events. *)
Definition endless_backend (hist : list Request) (req : Request) : PostResult :=
  Responded (items_response (numbered_events 100)).

(** * [process_task_reports.py] *)

(** What [process_task_reports] can raise: the lookup errors of
    [t["report"][...]], the [NameError] of reading a name that is not bound,
    and the [ZeroDivisionError] of [/]. *)
Inductive ReportsError : Type :=
| LookupFailed (e : PyError)
| NameError (name : string)
| ZeroDivisionError.

(** [v[key]] for a string key, as a value or the exception raised. *)
Definition subscript (v : json) (key : string) : PyError + json :=
  match v with
  | JObj entries =>
      match assoc key entries with
      | Some x => inr x
      | None => inl (KeyError key)
      end
  | _ => inl TypeError
  end.

(** [[t["report"][axis] for t in task_reports]] *)
Fixpoint coordinates (axis : string) (task_reports : list json) : ReportsError + list json :=
  match task_reports with
  | [] => inr []
  | t :: rest =>
      match subscript t "report" with
      | inl e => inl (LookupFailed e)
      | inr report =>
          match subscript report axis with
          | inl e => inl (LookupFailed e)
          | inr x =>
              match coordinates axis rest with
              | inl e => inl e
              | inr xs => inr (x :: xs)
              end
          end
      end
  end.

Record Counters : Type := MkCounters {
  total_run_count : Z;
  redundancy_count : Z
}.

(** One iteration of the loop [for _ in tqdm.tqdm(task_reports, ...)]: it
    increments [total_run_count] and then reads [task_report], a name that
    neither the function nor the module binds (the loop variable is [_]), so
    the iteration raises [NameError]; the statements after that one are never
    reached. *)
Definition iteration (c : Counters) : ReportsError + Counters :=
  let c := {| total_run_count := total_run_count c + 1;
              redundancy_count := redundancy_count c |} in
  inl (NameError "task_report").

Fixpoint for_each_report (task_reports : list json) (c : Counters)
    : ReportsError + Counters :=
  match task_reports with
  | [] => inr c
  | _ :: rest =>
      match iteration c with
      | inl e => inl e
      | inr c' => for_each_report rest c'
      end
  end.

Section ProcessTaskReports.
(** The text of [round(redundancy_count / total_run_count * 100, 2)] for a
    total other than zero: floating-point arithmetic, left to the
    environment. *)
Variable percentage : Z -> Z -> string.

(** [process_task_reports(task_reports)] for a list of decoded reports: the
    lines printed, and the exception raised if any.  The progress bar that
    [tqdm] draws on the error stream is left out. *)
Definition process_task_reports (task_reports : list json)
    : list string * option ReportsError :=
  match coordinates "robotCleaningSquareX" task_reports with
  | inl e => ([], Some e)
  | inr task_reports_x_cordinates =>
      match coordinates "robotCleaningSquareY" task_reports with
      | inl e => ([], Some e)
      | inr task_reports_y_cordinates =>
          match for_each_report task_reports
                  {| total_run_count := 0; redundancy_count := 0 |} with
          | inl e => ([], Some e)
          | inr c =>
              let printed := ["Redundancy: " +:+ pretty (redundancy_count c);
                              "Total: " +:+ pretty (total_run_count c)] in
              if total_run_count c =? 0
              then (printed, Some ZeroDivisionError)
              else (printed ++ ["Redundancy percentage: "
                                  +:+ percentage (redundancy_count c) (total_run_count c)
                                  +:+ "%"],
                    None)
          end
      end
  end.
End ProcessTaskReports.

(** A report with both coordinates. *)
Definition sample_report (x y : Z) : json :=
  JObj [("report", JObj [("robotCleaningSquareX", JInt x);
                         ("robotCleaningSquareY", JInt y)])].

(** * [run_analysis.py] *)

(** The parameters of the event query when the device id is any decoded
    value: [main] passes on whatever the device record holds under ["id"]. *)
Definition events_params_for (deviceId : json) (page_offset : Z) : json :=
  JObj [("eventTypes", JArr [JStr "task-summary"]);
        ("count", JInt page_size);
        ("offset", JInt page_offset);
        ("deviceIds", JArr [deviceId])].

(** How a run of [main] ends. *)
Inductive Ending : Type :=
| Finished
| Raised (e : exn)
| RaisedInReports (e : ReportsError)
| StillRunning.

Section RunAnalysis.
Context `{Runtime}.

(** The loop of [get_task_list_for_device_sync] for such an id. *)
Fixpoint fetch_pages_for (fuel : nat) (endpoint : string) (deviceId : json) (page_offset : Z)
    (task_summaries : list json) : M World (list json) :=
  match fuel with
  | O => out_of_fuel
  | S fuel' =>
      let params := events_params_for deviceId page_offset in
      auth <- _get_authenticated_headers ;;
      response <- requests_post endpoint (Some auth) params ;;
      if negb (status_code response =? 200) then
        status <- Response_status response ;;
        raise (FormantError (FormantClientRequestError_init
                 ("Failed to get task summaries... code: " +:+ pretty status
                    +:+ ". error: " +:+ text response) None))
      else
        decoded <- Response_json response ;;
        items <- getitem decoded "items" ;;
        new_items <- iterate items ;;
        let task_summaries := task_summaries ++ new_items in
        decoded <- Response_json response ;;
        items <- getitem decoded "items" ;;
        count <- len items ;;
        if count <? page_size then ret task_summaries
        else fetch_pages_for fuel' endpoint deviceId (page_offset + page_size) task_summaries
  end.

Definition get_task_list_for (fuel : nat) (deviceId : json) : M World (option (list json)) :=
  formant_client_retry_on_failure NUM_RETRIES true
    (endpoint <- _get_get_admin_endpoint "/events/query" ;;
     fetch_pages_for fuel endpoint deviceId 0 []).

(** Iterating over what a decorated method returned; [None] cannot be
    iterated. *)
Definition iterate_result (result : option json) : M World (list json) :=
  match result with
  | Some v => iterate v
  | None => raise (Builtin TypeError)
  end.

(** [[robot["id"] for robot in robots]] *)
Fixpoint robot_ids_of (robots : list json) : M World (list json) :=
  match robots with
  | [] => ret []
  | robot :: rest =>
      id <- getitem robot "id" ;;
      ids <- robot_ids_of rest ;;
      ret (id :: ids)
  end.

(** The loop [for robot in tqdm.tqdm(robot_ids, ...)]. *)
Fixpoint download_task_reports (fuel : nat) (robot_ids : list json)
    (all_task_reports : list json) : M World (list json) :=
  match robot_ids with
  | [] => ret all_task_reports
  | robot :: rest =>
      task_reports <- get_task_list_for fuel robot ;;
      match task_reports with
      | Some reports => download_task_reports fuel rest (all_task_reports ++ reports)
      | None => raise (Builtin TypeError)
      end
  end.

(** [main] up to the call of [process_task_reports]. *)
Definition download (fuel : nat) : M World (list json) :=
  robots <- query_robots (JObj []) false ;;
  robots <- iterate_result robots ;;
  robot_ids <- robot_ids_of robots ;;
  download_task_reports fuel robot_ids [].

(** [main()], given the three constants that it imports from [env] and the
    rendering of the percentage: how it ends, the world it leaves, the
    warnings logged and the lines printed. *)
Definition main (API_ENDPOINT FORMANT_EMAIL FORMANT_PASSWORD : string)
    (percentage : Z -> Z -> string) (fuel : nat)
    : Ending * World * list string * list string :=
  let fclient := FormantClient_init API_ENDPOINT FORMANT_EMAIL FORMANT_PASSWORD in
  match download fuel {| self := fclient; sent := [] |} with
  | (Return all_task_reports, w, log) =>
      match process_task_reports percentage all_task_reports with
      | (printed, Some e) => (RaisedInReports e, w, log, printed)
      | (printed, None) => (Finished, w, log, printed)
      end
  | (Raise e, w, log) => (Raised e, w, log, [])
  | (OutOfFuel, w, log) => (StillRunning, w, log, [])
  end.
End RunAnalysis.

(** The pages of one device: pages of at least [page_size] items followed
    by a shorter one. *)
Definition well_paged (pages : list (list json)) : Prop :=
  exists full last,
    pages = full ++ [last]
    /\ Forall (fun p => page_size <= Z.of_nat (length p)) full
    /\ Z.of_nat (length last) < page_size.

(** The page requests for a fleet, device after device; a fleet lists each
    device id with the pages of its events. *)
Fixpoint fleet_requests (base : string) (auth : gmap string string)
    (fleet : list (string * list (list json))) : list Request :=
  match fleet with
  | [] => []
  | (deviceId, pages) :: rest =>
      page_requests base auth deviceId 0 (length pages) ++ fleet_requests base auth rest
  end.

(** [fleet_served hist base auth fleet]: after the requests [hist], the
    backend serves the pages of each device of the fleet in turn. *)
Fixpoint fleet_served `{Runtime} (hist : list Request) (base : string)
    (auth : gmap string string) (fleet : list (string * list (list json))) : Prop :=
  match fleet with
  | [] => True
  | (deviceId, pages) :: rest =>
      well_paged pages
      /\ serves hist base auth deviceId 0 pages
      /\ fleet_served (hist ++ page_requests base auth deviceId 0 (length pages)) base auth rest
  end.

(** All the reports of a fleet, device after device, page after page. *)
Definition fleet_reports (fleet : list (string * list (list json))) : list json :=
  concat (map (fun device => concat device.2) fleet).

(** A backend with two devices: ["dev-1"] has three reports and ["dev-2"]
    one. *)
Definition two_device_backend (hist : list Request) (req : Request) : PostResult :=
  if String.eqb (url req) (sample_endpoint +:+ "/auth/login")
  then Responded sample_login_response
  else if String.eqb (url req) (sample_endpoint +:+ "/devices/query")
  then Responded (items_response [JObj [("id", JStr "dev-1")]; JObj [("id", JStr "dev-2")]])
  else match json_arg req with
       | JObj [_; _; _; (_, JArr [JStr "dev-1"])] =>
           Responded (items_response [sample_report 0 0; sample_report 0 1; sample_report 0 0])
       | _ => Responded (items_response [sample_report 5 5])
       end.

(** A backend whose fleet is empty: login succeeds and every query answers
    with no item. *)
Definition empty_fleet_backend (hist : list Request) (req : Request) : PostResult :=
  if String.eqb (url req) (sample_endpoint +:+ "/auth/login")
  then Responded sample_login_response
  else Responded (items_response []).

(** A backend whose device list holds a record without an id. *)
Definition nameless_device_backend (hist : list Request) (req : Request) : PostResult :=
  if String.eqb (url req) (sample_endpoint +:+ "/auth/login")
  then Responded sample_login_response
  else Responded (items_response [JObj [("id", JStr "dev-1")]; JObj [("name", JStr "dev-2")]]).

(** * Properties *)

(** ** The retry wrapper *)

Section RetryFacts.
Context {St A : Type}.
Variable max_retries : Z.
Variable propegrate_error : bool.
Variable func : M St A.

Local Abbreviation loop := (wrapper_loop max_retries propegrate_error func).
Local Abbreviation trace_log := (retry_log max_retries).

(** One iteration whose invocation returns. *)
Lemma wrapper_loop_return remaining i s v s' l :
  func s = (Return v, s', l) ->
  loop (S remaining) i s = (Return (Some v), s', l).
Proof.
  intros Hf. cbn [wrapper_loop]. unfold try_except, bind, ret.
  rewrite Hf. by rewrite app_nil_r.
Qed.

(** One iteration whose invocation fails retryably. *)
Lemma wrapper_loop_retry remaining i s e s1 l :
  func s = (Raise (FormantError e), s1, l) ->
  retryable e = true ->
  loop (S remaining) i s =
    let '(o, s2, l2) := loop remaining (i + 1) s1 in
    (o, s2, l ++ retry_warning max_retries e i :: l2).
Proof.
  intros Hf He. cbn [wrapper_loop]. unfold try_except, bind at 1.
  rewrite Hf. cbn [is_FormantClientRequestError]. rewrite He. cbn [negb].
  unfold bind, logging_warning.
  by destruct (loop remaining (i + 1) s1) as [[o s2] l2].
Qed.

(** One iteration whose invocation fails with a non-retryable error. *)
Lemma wrapper_loop_fatal remaining i s e s1 l :
  func s = (Raise (FormantError e), s1, l) ->
  retryable e = false ->
  loop (S remaining) i s = (Raise (FormantError e), s1, l).
Proof.
  intros Hf He. cbn [wrapper_loop]. unfold try_except, bind.
  rewrite Hf. cbn [is_FormantClientRequestError]. rewrite He. cbn [negb].
  unfold raise. by rewrite app_nil_r.
Qed.

(** One iteration whose invocation raises something the wrapper does not
    catch. *)
Lemma wrapper_loop_uncaught remaining i s e s1 l :
  func s = (Raise (Builtin e), s1, l) ->
  loop (S remaining) i s = (Raise (Builtin e), s1, l).
Proof.
  intros Hf. cbn [wrapper_loop]. unfold try_except, bind.
  by rewrite Hf.
Qed.

Lemma wrapper_loop_out_of_fuel remaining i s s1 l :
  func s = (OutOfFuel, s1, l) ->
  loop (S remaining) i s = (OutOfFuel, s1, l).
Proof.
  intros Hf. cbn [wrapper_loop]. unfold try_except, bind.
  by rewrite Hf.
Qed.

(** The loop goes through a trace of retryable failures and carries on
    from the state they leave. *)
Lemma wrapper_loop_fails trace s s' :
  fails_with func trace s s' ->
  forall remaining i,
    loop (length trace + remaining) i s =
      let '(o, s2, l2) := loop remaining (i + Z.of_nat (length trace)) s' in
      (o, s2, trace_log i trace ++ l2).
Proof.
  induction 1 as [s | e l trace s s1 s2 Hf He Hrest IH]; intros remaining i.
  - cbn [length retry_log Nat.add]. rewrite Z.add_0_r.
    by destruct (loop remaining i s) as [[o s2] l2].
  - cbn [length retry_log Nat.add].
    rewrite (wrapper_loop_retry _ _ _ _ _ _ Hf He), IH.
    replace (i + 1 + Z.of_nat (length trace)) with (i + Z.of_nat (S (length trace))) by lia.
    destruct (loop remaining _ s2) as [[o s3] l3].
    by rewrite <- app_assoc.
Qed.

Lemma fails_with_app trace1 trace2 s s1 s2 :
  fails_with func trace1 s s1 ->
  fails_with func trace2 s1 s2 ->
  fails_with func (trace1 ++ trace2) s s2.
Proof.
  induction 1 as [| e l trace s s1' s1 Hf He Hrest IH]; intros H2; [done |].
  cbn [app]. econstructor; eauto.
Qed.

(** A trace that uses up the whole budget ends in the code after the loop. *)
Lemma retry_exhausted_run trace s s' :
  length trace = Z.to_nat max_retries ->
  fails_with func trace s s' ->
  formant_client_retry_on_failure max_retries propegrate_error func s
    = (if propegrate_error
       then Raise (FormantError (retries_exhausted max_retries))
       else Return None,
       s', trace_log 0 trace).
Proof.
  intros Hlen Hfail. unfold formant_client_retry_on_failure.
  replace (Z.to_nat max_retries) with (length trace + 0)%nat by lia.
  rewrite (wrapper_loop_fails _ _ _ Hfail).
  cbn [wrapper_loop]. destruct propegrate_error; unfold raise, ret; by rewrite app_nil_r.
Qed.

(** The wrapper adds one warning per entry of the trace. *)
Lemma length_retry_log i trace :
  length (trace_log i trace) = (length trace + length (own_log trace))%nat.
Proof.
  revert i. induction trace as [| [e l] trace IH]; intros i; [done |].
  cbn [retry_log own_log map concat length]. fold (own_log trace).
  rewrite !length_app. cbn [length snd]. rewrite IH. lia.
Qed.
End RetryFacts.

(** C2: for every [n >= 1], an operation that fails retryably on its first
    [k < n] invocations and returns [v] on the next one makes the wrapper
    return [v]; the log then holds what the invocations logged themselves
    plus exactly [k] warnings of the wrapper, one per retried attempt. *)
Theorem retry_returns_after_k_failures {St A : Type} (n : Z) (propegrate_error : bool)
    (func : M St A) trace s s' v s_end l :
  1 <= n ->
  Z.of_nat (length trace) < n ->
  fails_with func trace s s' ->
  func s' = (Return v, s_end, l) ->
  formant_client_retry_on_failure n propegrate_error func s
    = (Return (Some v), s_end, retry_log n 0 trace ++ l)
  /\ length (retry_log n 0 trace) = (length trace + length (own_log trace))%nat.
Proof.
  intros Hn Hk Hfail Hok. split; [| apply length_retry_log].
  unfold formant_client_retry_on_failure.
  replace (Z.to_nat n) with (length trace + S (Z.to_nat n - length trace - 1))%nat by lia.
  rewrite (wrapper_loop_fails _ _ _ _ _ _ Hfail).
  by rewrite (wrapper_loop_return _ _ _ _ _ _ _ _ _ Hok).
Qed.

Lemma retry_returns_after_k_failures_witness :
  formant_client_retry_on_failure 3 true (flaky 2 "ok") 0%nat
    = (Return (Some "ok"), 3%nat,
       ["Request failed with error: FormantClientRequestError: transient. Retrying (1/3)";
        "Request failed with error: FormantClientRequestError: transient. Retrying (2/3)"]).
Proof.
  pose (e := FormantClientRequestError_init "transient" None).
  refine (proj1 (retry_returns_after_k_failures 3 true (flaky 2 "ok")
                   [(e, []); (e, [])] 0%nat 2%nat "ok" 3%nat [] _ _ _ _)).
  - lia.
  - cbn. lia.
  - repeat (econstructor; try reflexivity).
  - reflexivity.
Defined.

(** C8: when an invocation fails with an error whose [retryable] field is
    false, the wrapper raises that same error at once, whatever is left of
    the budget: the state is the one that invocation left, and the log holds
    nothing beyond the earlier retries and that invocation's own entries. *)
Theorem retry_stops_on_non_retryable {St A : Type} (n : Z) (propegrate_error : bool)
    (func : M St A) trace s s' e s1 l :
  Z.of_nat (length trace) < n ->
  fails_with func trace s s' ->
  func s' = (Raise (FormantError e), s1, l) ->
  retryable e = false ->
  formant_client_retry_on_failure n propegrate_error func s
    = (Raise (FormantError e), s1, retry_log n 0 trace ++ l).
Proof.
  intros Hk Hfail Hraise He.
  unfold formant_client_retry_on_failure.
  replace (Z.to_nat n) with (length trace + S (Z.to_nat n - length trace - 1))%nat by lia.
  rewrite (wrapper_loop_fails _ _ _ _ _ _ Hfail).
  by rewrite (wrapper_loop_fatal _ _ _ _ _ _ _ _ _ Hraise He).
Qed.

Lemma retry_stops_on_non_retryable_witness :
  formant_client_retry_on_failure 5 true (fatal_at 0) 0%nat
    = (Raise (FormantError {| message := "fatal"; retryable := false |}), 1%nat, []).
Proof.
  refine (retry_stops_on_non_retryable 5 true (fatal_at 0) [] 0%nat 0%nat
            {| message := "fatal"; retryable := false |} 1%nat [] _ _ _ _).
  - cbn. lia.
  - constructor.
  - reflexivity.
  - reflexivity.
Defined.

(** C3, as the code has it: when every one of the [n] invocations fails
    retryably, the wrapper raises the error built by
    [FormantClientRequestError("Request failed after n retries")]; built
    without the flag, it takes the constructor's default and is retryable. *)
Theorem retries_exhausted_is_retryable {St A : Type} (n : Z) (func : M St A) trace s s' :
  length trace = Z.to_nat n ->
  fails_with func trace s s' ->
  exists e,
    formant_client_retry_on_failure n true func s
      = (Raise (FormantError e), s', retry_log n 0 trace)
    /\ message e = "Request failed after " +:+ pretty n +:+ " retries"
    /\ retryable e = true.
Proof.
  intros Hlen Hfail. exists (retries_exhausted n). split; [| done].
  by rewrite (retry_exhausted_run n true func trace s s' Hlen Hfail).
Qed.

Lemma retries_exhausted_is_retryable_witness :
  exists e,
    formant_client_retry_on_failure 2 true (flaky 5 "ok") 0%nat
      = (Raise (FormantError e), 2%nat,
         ["Request failed with error: FormantClientRequestError: transient. Retrying (1/2)";
          "Request failed with error: FormantClientRequestError: transient. Retrying (2/2)"])
    /\ message e = "Request failed after 2 retries"
    /\ retryable e = true.
Proof.
  pose (e := FormantClientRequestError_init "transient" None).
  refine (retries_exhausted_is_retryable 2 (flaky 5 "ok") [(e, []); (e, [])] 0%nat 2%nat _ _).
  - reflexivity.
  - repeat (econstructor; try reflexivity).
Defined.

(** C3, as stated, fails: the error raised on exhaustion is not classified
    non-retryable. *)
Lemma retries_exhausted_not_fatal :
  exists e s l,
    formant_client_retry_on_failure 3 true (flaky 5 "ok") 0%nat
      = (Raise (FormantError e), s, l)
    /\ retryable e <> false.
Proof.
  eexists _, _, _. split; [reflexivity |]. cbn. discriminate.
Qed.

(** ** The credential cache *)

Ltac step := cbv [bind gets ret raise modify out_of_fuel logging_warning].

Section ClientFacts.
Context `{Runtime}.

Lemma authenticate_body_cached w :
  authenticated w -> _authenticate_body w = (Return tt, w, []).
Proof.
  intros Hw. unfold _authenticate_body. step.
  by apply Nat.ltb_lt in Hw as ->.
Qed.

Lemma authenticate_cached w :
  authenticated w -> _authenticate w = (Return (Some tt), w, []).
Proof.
  intros Hw. unfold _authenticate, formant_client_retry_on_failure.
  change (Z.to_nat NUM_RETRIES) with 5%nat.
  by rewrite (wrapper_loop_return _ _ _ _ _ _ _ _ _ (authenticate_body_cached w Hw)).
Qed.

Lemma get_authenticated_headers_cached w :
  authenticated w ->
  _get_authenticated_headers w = (Return (_authenticated_headers (self w)), w, []).
Proof.
  intros Hw. unfold _get_authenticated_headers, bind.
  by rewrite (authenticate_cached w Hw).
Qed.

Lemma bearer_headers_nonempty token : (0 < size (bearer_headers token))%nat.
Proof.
  unfold bearer_headers.
  apply Nat.neq_0_lt_0, map_size_non_empty_iff, insert_non_empty.
Qed.

Lemma getitem_assoc key entries v (w : World) :
  assoc key entries = Some v -> getitem (JObj entries) key w = (Return v, w, []).
Proof. intros Hv. unfold getitem. by rewrite Hv. Qed.

(** A login answered 200 with a token fills the cache. *)
Lemma authenticate_body_login w r token :
  _authenticated_headers (self w) = ∅ ->
  http_post (sent w) (login_request w) = Responded r ->
  status_code r = 200 ->
  access_token r = Some token ->
  _authenticate_body w
    = (Return tt,
       set_authenticated_headers (bearer_headers token) (record_request (login_request w) w),
       []).
Proof.
  intros Hempty Hpost Hstatus Htoken.
  unfold _authenticate_body, _get_get_admin_endpoint, requests_post. step.
  rewrite Hempty. cbn [size]. rewrite map_size_empty. cbn [Nat.ltb Nat.leb].
  fold (login_request w). rewrite Hpost, Hstatus. cbn [Z.eqb Pos.eqb].
  unfold access_token in Htoken. unfold Response_json.
  destruct (json_body r) as [[| | | | | | entries] |]; try discriminate.
  destruct (assoc "authentication" entries) as [[| | | | | | inner] |] eqn:Hauth;
    try discriminate.
  step. cbn [getitem]. rewrite Hauth. step. cbn [getitem]. rewrite Htoken. step.
  reflexivity.
Qed.

(** A login answered with another status raises a retryable error that
    carries the response text. *)
Lemma authenticate_body_rejected w r :
  _authenticated_headers (self w) = ∅ ->
  http_post (sent w) (login_request w) = Responded r ->
  status_code r <> 200 ->
  _authenticate_body w
    = (Raise (FormantError (FormantClientRequestError_init
                              ("Failed to authenticate... " +:+ text r) None)),
       record_request (login_request w) w, []).
Proof.
  intros Hempty Hpost Hstatus.
  unfold _authenticate_body, _get_get_admin_endpoint, requests_post. step.
  rewrite Hempty, map_size_empty. cbn [Nat.ltb Nat.leb].
  fold (login_request w). rewrite Hpost.
  by apply Z.eqb_neq in Hstatus as ->.
Qed.
(** What the wrapper returns came out of an invocation. *)
Lemma wrapper_loop_returns {St A} max_retries (func : M St A) remaining i s v s' l :
  wrapper_loop max_retries true func remaining i s = (Return v, s', l) ->
  exists a s0 l0, v = Some a /\ func s0 = (Return a, s', l0).
Proof.
  revert i s l. induction remaining as [| remaining IH]; intros i s l; [done |].
  destruct (func s) as [[[a' | [e | e] |] s1] l1] eqn:Hs.
  - rewrite (wrapper_loop_return _ _ _ _ _ _ _ _ _ Hs). intros [= <- <- <-]. eauto.
  - by rewrite (wrapper_loop_uncaught _ _ _ _ _ _ _ _ _ Hs).
  - destruct (retryable e) eqn:He.
    + rewrite (wrapper_loop_retry _ _ _ _ _ _ _ _ _ Hs He).
      destruct (wrapper_loop _ _ _ remaining (i + 1) s1) as [[o s2] l2] eqn:Hrec.
      intros [= -> -> <-]. eauto.
    + by rewrite (wrapper_loop_fatal _ _ _ _ _ _ _ _ _ Hs He).
  - by rewrite (wrapper_loop_out_of_fuel _ _ _ _ _ _ _ _ Hs).
Qed.

Lemma authenticate_body_returns s0 s' l0 :
  _authenticate_body s0 = (Return tt, s', l0) -> authenticated s'.
Proof.
  unfold _authenticate_body, _get_get_admin_endpoint, requests_post.
  step. destruct (0 <? size _)%nat eqn:Hsize.
  - intros [= <-]. by apply Nat.ltb_lt.
  - destruct (http_post _ _) as [r |]; [| discriminate].
    destruct (status_code r =? 200); [| discriminate].
    unfold Response_json.
    destruct (json_body r) as [decoded |]; [| discriminate]. step.
    destruct decoded as [| | | | | | entries]; try discriminate. cbn [getitem].
    destruct (assoc "authentication" entries) as [inner |]; [| discriminate]. step.
    destruct inner as [| | | | | | inner]; try discriminate. cbn [getitem].
    destruct (assoc "accessToken" inner) as [token |]; [| discriminate]. step.
    intros [= <-]. apply bearer_headers_nonempty.
Qed.

(** Once the headers have been obtained, the client holds them. *)
Lemma get_authenticated_headers_returns w auth w1 l :
  _get_authenticated_headers w = (Return auth, w1, l) ->
  authenticated w1 /\ auth = _authenticated_headers (self w1).
Proof.
  unfold _get_authenticated_headers, bind, gets.
  destruct (_authenticate w) as [[[v | e |] w'] l'] eqn:Hw; try discriminate.
  intros [= <- <- <-]. split; [| done].
  apply wrapper_loop_returns in Hw as ([] & s0 & l0 & _ & Hs0).
  by apply authenticate_body_returns in Hs0.
Qed.
End ClientFacts.

(** ** Invariants of computations *)

Section Combinators.
Context {St : Type}.

Lemma preserves_ret {A} (I : St -> Prop) (a : A) : preserves I (ret a).
Proof. by intros s Hs. Qed.

Lemma preserves_raise {A} (I : St -> Prop) e : preserves I (@raise St A e).
Proof. by intros s Hs. Qed.

Lemma preserves_out_of_fuel {A} (I : St -> Prop) : preserves I (@out_of_fuel St A).
Proof. by intros s Hs. Qed.

Lemma preserves_gets {A} (I : St -> Prop) (f : St -> A) : preserves I (gets f).
Proof. by intros s Hs. Qed.

Lemma preserves_logging_warning (I : St -> Prop) msg : preserves I (logging_warning msg).
Proof. by intros s Hs. Qed.

Lemma preserves_bind {A B} (I : St -> Prop) (m : M St A) (k : A -> M St B) :
  preserves I m -> (forall a, preserves I (k a)) -> preserves I (bind m k).
Proof.
  intros Hm Hk s Hs. unfold bind. specialize (Hm s Hs).
  destruct (m s) as [[[a | e |] s1] l1]; try done.
  specialize (Hk a s1 Hm). by destruct (k a s1) as [[o s2] l2].
Qed.

Lemma preserves_try_except {A} (I : St -> Prop) (m : M St A) caught handler :
  preserves I m -> (forall e, preserves I (handler e)) ->
  preserves I (try_except m caught handler).
Proof.
  intros Hm Hh s Hs. unfold try_except. specialize (Hm s Hs).
  destruct (m s) as [[[a | e |] s1] l1]; try done.
  destruct (caught e); [| done].
  specialize (Hh e s1 Hm). by destruct (handler e s1) as [[o s2] l2].
Qed.

Lemma preserves_wrapper_loop {A} (I : St -> Prop) max_retries propegrate_error
    (func : M St A) remaining i :
  preserves I func -> preserves I (wrapper_loop max_retries propegrate_error func remaining i).
Proof.
  intros Hf. revert i. induction remaining as [| remaining IH]; intros i.
  - cbn [wrapper_loop]. destruct propegrate_error;
      [apply preserves_raise | apply preserves_ret].
  - cbn [wrapper_loop]. apply preserves_try_except.
    + apply preserves_bind; [done | intros a; apply preserves_ret].
    + intros [e | e]; [apply preserves_raise |].
      destruct (negb (retryable e)); [apply preserves_raise |].
      apply preserves_bind; [apply preserves_logging_warning | intros _; apply IH].
Qed.

Lemma never_fatal_ret {A} (a : A) : never_fatal (@ret St A a).
Proof. by intros s. Qed.

Lemma never_fatal_builtin {A} e : never_fatal (@raise St A (Builtin e)).
Proof. by intros s. Qed.

Lemma never_fatal_default {A} msg :
  never_fatal (@raise St A (FormantError (FormantClientRequestError_init msg None))).
Proof. by intros s. Qed.

Lemma never_fatal_out_of_fuel {A} : never_fatal (@out_of_fuel St A).
Proof. by intros s. Qed.

Lemma never_fatal_gets {A} (f : St -> A) : never_fatal (gets f).
Proof. by intros s. Qed.

Lemma never_fatal_modify (f : St -> St) : never_fatal (modify f).
Proof. by intros s. Qed.

Lemma never_fatal_bind {A B} (m : M St A) (k : A -> M St B) :
  never_fatal m -> (forall a, never_fatal (k a)) -> never_fatal (bind m k).
Proof.
  intros Hm Hk s. unfold bind. specialize (Hm s).
  destruct (m s) as [[[a | e |] s1] l1]; try done.
  specialize (Hk a s1). by destruct (k a s1) as [[o s2] l2].
Qed.

Lemma never_fatal_try_except {A} (m : M St A) caught handler :
  never_fatal m -> (forall e, never_fatal (handler e)) ->
  never_fatal (try_except m caught handler).
Proof.
  intros Hm Hh s. unfold try_except. specialize (Hm s).
  destruct (m s) as [[[a | e |] s1] l1]; try done.
  destruct (caught e); [| done].
  specialize (Hh e s1). by destruct (handler e s1) as [[o s2] l2].
Qed.

(** Wrapping an operation that never fails for good gives one that never
    fails for good: the only errors left are the exhaustion error and what
    the wrapper does not catch. *)
Lemma never_fatal_wrapper_loop {A} max_retries propegrate_error (func : M St A) remaining i :
  never_fatal func ->
  never_fatal (wrapper_loop max_retries propegrate_error func remaining i).
Proof.
  intros Hf. revert i. induction remaining as [| remaining IH]; intros i s.
  - cbn [wrapper_loop]. by destruct propegrate_error.
  - specialize (Hf s). destruct (func s) as [[[a | [e | e] |] s1] l1] eqn:Hs.
    + by rewrite (wrapper_loop_return _ _ _ _ _ _ _ _ _ Hs).
    + by rewrite (wrapper_loop_uncaught _ _ _ _ _ _ _ _ _ Hs).
    + cbn in Hf. rewrite (wrapper_loop_retry _ _ _ _ _ _ _ _ _ Hs Hf).
      specialize (IH (i + 1) s1).
      by destruct (wrapper_loop _ _ _ remaining (i + 1) s1) as [[o s2] l2].
    + by rewrite (wrapper_loop_out_of_fuel _ _ _ _ _ _ _ _ Hs).
Qed.
End Combinators.

(** ** Errors raised by the module *)

Create HintDb never_fatal.

#[local] Hint Resolve
  never_fatal_ret never_fatal_builtin never_fatal_default never_fatal_out_of_fuel
  never_fatal_gets never_fatal_modify : never_fatal.

Ltac never_fatal_step :=
  match goal with
  | |- never_fatal (bind _ _) => apply never_fatal_bind; [| intros ?]
  | |- never_fatal (try_except _ _ _) => apply never_fatal_try_except; [| intros ?]
  | |- never_fatal (if ?b then _ else _) => destruct b
  | |- never_fatal (match ?x with _ => _ end) => destruct x
  | |- never_fatal (wrapper_loop _ _ _ _ _) => apply never_fatal_wrapper_loop
  | |- never_fatal (formant_client_retry_on_failure _ _ _) => apply never_fatal_wrapper_loop
  | |- _ => solve [auto with never_fatal]
  end.

Section ModuleErrors.
Context `{Runtime}.

Lemma never_fatal_requests_post u h j : never_fatal (requests_post u h j).
Proof. intros w. unfold requests_post. by destruct (http_post _ _). Qed.

Lemma never_fatal_Response_json r : never_fatal (Response_json r).
Proof. unfold Response_json. repeat never_fatal_step. Qed.

Lemma never_fatal_Response_status r : never_fatal (Response_status r).
Proof. unfold Response_status. repeat never_fatal_step. Qed.

Lemma never_fatal_getitem v key : never_fatal (@getitem World v key).
Proof. unfold getitem. repeat never_fatal_step. Qed.

Lemma never_fatal_iterate v : never_fatal (@iterate World v).
Proof. unfold iterate. repeat never_fatal_step. Qed.

Lemma never_fatal_len v : never_fatal (@len World v).
Proof. unfold len. repeat never_fatal_step. Qed.

#[local] Hint Resolve
  never_fatal_requests_post never_fatal_Response_json never_fatal_Response_status
  never_fatal_getitem never_fatal_iterate never_fatal_len : never_fatal.

Lemma never_fatal_authenticate_body : never_fatal _authenticate_body.
Proof.
  unfold _authenticate_body, _get_get_admin_endpoint. repeat never_fatal_step.
Qed.

Lemma never_fatal_authenticate : never_fatal _authenticate.
Proof. apply never_fatal_wrapper_loop, never_fatal_authenticate_body. Qed.

Lemma never_fatal_get_authenticated_headers : never_fatal _get_authenticated_headers.
Proof.
  unfold _get_authenticated_headers.
  apply never_fatal_bind; [apply never_fatal_authenticate | auto with never_fatal].
Qed.

#[local] Hint Resolve never_fatal_get_authenticated_headers : never_fatal.

Lemma never_fatal_query_robots_body tags enabled_only :
  never_fatal (query_robots_body tags enabled_only).
Proof.
  unfold query_robots_body, _get_get_admin_endpoint. cbv zeta.
  repeat never_fatal_step.
Qed.

Lemma never_fatal_fetch_pages fuel endpoint deviceId page_offset task_summaries :
  never_fatal (fetch_pages fuel endpoint deviceId page_offset task_summaries).
Proof.
  revert page_offset task_summaries.
  induction fuel as [| fuel IH]; intros page_offset task_summaries;
    cbn [fetch_pages]; [auto with never_fatal |].
  cbv zeta. repeat never_fatal_step.
Qed.

Lemma never_fatal_get_task_list_body fuel deviceId :
  never_fatal (get_task_list_for_device_sync_body fuel deviceId).
Proof.
  unfold get_task_list_for_device_sync_body, _get_get_admin_endpoint.
  apply never_fatal_bind; [auto with never_fatal | intros ?].
  apply never_fatal_fetch_pages.
Qed.
End ModuleErrors.

(** C9: every [FormantClientRequestError] that the module constructs is built
    without the flag and so is retryable; hence no body that the decorator
    wraps, and no method of the client, ever ends in a non-retryable
    [FormantClientRequestError]: the wrapper's immediate re-raise is never
    taken for errors that come from this module. *)
Theorem module_errors_are_retryable `{Runtime} :
  (forall msg, retryable (FormantClientRequestError_init msg None) = true)
  /\ (forall n, retryable (retries_exhausted n) = true)
  /\ never_fatal _authenticate_body
  /\ (forall tags enabled_only, never_fatal (query_robots_body tags enabled_only))
  /\ (forall fuel deviceId, never_fatal (get_task_list_for_device_sync_body fuel deviceId))
  /\ (forall m, never_fatal (call m)).
Proof.
  repeat split.
  - apply never_fatal_authenticate_body.
  - apply never_fatal_query_robots_body.
  - apply never_fatal_get_task_list_body.
  - intros m. destruct m; cbn [call];
      (apply never_fatal_bind; [| intros ?; apply never_fatal_ret]).
    + apply never_fatal_gets.
    + apply never_fatal_authenticate.
    + apply never_fatal_get_authenticated_headers.
    + apply never_fatal_wrapper_loop, never_fatal_query_robots_body.
    + apply never_fatal_wrapper_loop, never_fatal_get_task_list_body.
Qed.

(** ** What the methods do to a client that holds headers *)

Create HintDb preserves.

#[local] Hint Resolve
  preserves_ret preserves_raise preserves_out_of_fuel preserves_gets
  preserves_logging_warning : preserves.

Ltac preserves_step :=
  match goal with
  | |- preserves _ (bind _ _) => apply preserves_bind; [| intros ?]
  | |- preserves _ (try_except _ _ _) => apply preserves_try_except; [| intros ?]
  | |- preserves _ (if ?b then _ else _) => destruct b
  | |- preserves _ (match ?x with _ => _ end) => destruct x
  | |- preserves _ (formant_client_retry_on_failure _ _ _) => apply preserves_wrapper_loop
  | |- _ => solve [auto with preserves]
  end.

Section CachedClient.
Context `{Runtime}.
Variable client : FormantClient.
Hypothesis client_has_headers : (0 < size (_authenticated_headers client))%nat.

Lemma is_client_authenticated w : is_client client w -> authenticated w.
Proof. unfold is_client, authenticated. by intros ->. Qed.

Lemma preserves_requests_post u h j : preserves (is_client client) (requests_post u h j).
Proof. intros w Hw. unfold requests_post. by destruct (http_post _ _). Qed.

Lemma preserves_Response_json r : preserves (is_client client) (Response_json r).
Proof. unfold Response_json. repeat preserves_step. Qed.

Lemma preserves_getitem v key : preserves (is_client client) (getitem v key).
Proof. unfold getitem. repeat preserves_step. Qed.

Lemma preserves_iterate v : preserves (is_client client) (iterate v).
Proof. unfold iterate. repeat preserves_step. Qed.

Lemma preserves_len v : preserves (is_client client) (len v).
Proof. unfold len. repeat preserves_step. Qed.

Lemma preserves_authenticate_body : preserves (is_client client) _authenticate_body.
Proof.
  intros w Hw.
  by rewrite (authenticate_body_cached w (is_client_authenticated w Hw)).
Qed.

Lemma preserves_authenticate : preserves (is_client client) _authenticate.
Proof. apply preserves_wrapper_loop, preserves_authenticate_body. Qed.

Lemma preserves_get_authenticated_headers : preserves (is_client client) _get_authenticated_headers.
Proof.
  unfold _get_authenticated_headers.
  apply preserves_bind; [apply preserves_authenticate | auto with preserves].
Qed.

#[local] Hint Resolve
  preserves_requests_post preserves_Response_json preserves_getitem preserves_iterate
  preserves_len preserves_get_authenticated_headers : preserves.

Lemma preserves_query_robots_body tags enabled_only :
  preserves (is_client client) (query_robots_body tags enabled_only).
Proof.
  unfold query_robots_body, _get_get_admin_endpoint. cbv zeta.
  repeat preserves_step.
Qed.

Lemma preserves_fetch_pages fuel endpoint deviceId page_offset task_summaries :
  preserves (is_client client) (fetch_pages fuel endpoint deviceId page_offset task_summaries).
Proof.
  revert page_offset task_summaries.
  induction fuel as [| fuel IH]; intros page_offset task_summaries;
    cbn [fetch_pages]; [auto with preserves |].
  cbv zeta. unfold Response_status. repeat preserves_step.
Qed.

Lemma preserves_call m : preserves (is_client client) (call m).
Proof.
  destruct m; cbn [call]; (apply preserves_bind; [| intros ?; apply preserves_ret]).
  - apply preserves_gets.
  - apply preserves_authenticate.
  - apply preserves_get_authenticated_headers.
  - apply preserves_wrapper_loop, preserves_query_robots_body.
  - apply preserves_wrapper_loop. unfold get_task_list_for_device_sync_body.
    apply preserves_bind; [apply preserves_gets | intros ?; apply preserves_fetch_pages].
Qed.
End CachedClient.

(** C4, as the code has it: with an empty cache and a login answered 200
    with a token, the first header-obtaining call sends exactly one login
    POST and stores the Bearer-token and content-type headers; every later
    call returns the cached headers and leaves the world as it is, so it
    sends nothing; and no method of the client changes the client object
    once the headers are cached, so none clears the cache. *)
Theorem credential_cache_logs_in_once `{Runtime} w r token :
  _authenticated_headers (self w) = ∅ ->
  http_post (sent w) (login_request w) = Responded r ->
  status_code r = 200 ->
  access_token r = Some token ->
  let w1 := set_authenticated_headers (bearer_headers token)
              (record_request (login_request w) w) in
  _get_authenticated_headers w = (Return (bearer_headers token), w1, [])
  /\ sent w1 = sent w ++ [login_request w]
  /\ _authenticated_headers (self w1)
       = {[ "authorization" := "Bearer " +:+ str_of_json token;
            "content-type" := "application/json" ]}
  /\ (forall w2, is_client (self w1) w2 ->
        _get_authenticated_headers w2 = (Return (bearer_headers token), w2, []))
  /\ (forall m w2, is_client (self w1) w2 -> is_client (self w1) (call m w2).1.2).
Proof.
  intros Hempty Hpost Hstatus Htoken w1.
  assert (Hw1 : (0 < size (_authenticated_headers (self w1)))%nat)
    by apply bearer_headers_nonempty.
  repeat split.
  - unfold _get_authenticated_headers, bind, _authenticate, formant_client_retry_on_failure.
    change (Z.to_nat NUM_RETRIES) with 5%nat.
    by rewrite (wrapper_loop_return _ _ _ _ _ _ _ _ _
                  (authenticate_body_login w r token Hempty Hpost Hstatus Htoken)).
  - intros w2 Hw2.
    rewrite (get_authenticated_headers_cached w2 (is_client_authenticated _ Hw1 w2 Hw2)).
    by rewrite Hw2.
  - intros m w2 Hw2. by apply preserves_call.
Qed.

Lemma credential_cache_logs_in_once_witness :
  let rt := sample_runtime (paging_backend []) in
  @_get_authenticated_headers rt fresh_world
    = (Return sample_headers,
       {| self := self logged_in_world; sent := [login_request fresh_world] |}, [])
  /\ forall m w2, self w2 = self logged_in_world ->
       self (@call rt m w2).1.2 = self logged_in_world.
Proof.
  intros rt.
  pose proof (@credential_cache_logs_in_once rt fresh_world sample_login_response
                (JStr "t0k3n") eq_refl eq_refl eq_refl eq_refl) as (Hfirst & _ & _ & _ & Hkeep).
  split; [exact Hfirst | exact Hkeep].
Defined.

(** C4, as stated, fails: no method of the client clears cached headers. *)
Lemma no_invalidation_operation :
  ~ exists m : Method,
      _authenticated_headers
        (self (@call (sample_runtime (paging_backend [])) m logged_in_world).1.2) = ∅.
Proof.
  intros [m Hm].
  assert (Hhas : (0 < size (_authenticated_headers (self logged_in_world)))%nat)
    by (vm_compute; lia).
  pose proof (@preserves_call (sample_runtime (paging_backend [])) _ Hhas m
                logged_in_world eq_refl) as Hkeep.
  unfold is_client in Hkeep. rewrite Hkeep in Hm. by vm_compute in Hm.
Qed.

(** ** The device query *)

Section DeviceQuery.
Context `{Runtime}.

(** [response.json()["items"]], by cases on the response. *)
Lemma items_expression r (w : World) :
  (decoded <- Response_json r ;; getitem decoded "items") w
    = (match items_of r with
       | Some v => Return v
       | None => Raise (Builtin (items_failure r))
       end, w, []).
Proof.
  unfold Response_json, items_of, items_failure.
  destruct (json_body r) as [[| | | | | | entries] |]; try done.
  step. cbn [getitem]. by destruct (assoc "items" entries).
Qed.

(** One attempt of [query_robots], once the headers have been obtained. *)
Lemma query_robots_body_outcome w auth w1 l tags enabled_only r :
  _get_authenticated_headers w = (Return auth, w1, l) ->
  http_post (sent w1)
    (devices_query_request (_admin_api_endpoint (self w)) auth tags enabled_only)
    = Responded r ->
  query_robots_body tags enabled_only w
    = (if status_code r =? 200
       then match items_of r with
            | Some v => Return v
            | None =>
                Raise (FormantError (FormantClientRequestError_init
                         ("Failed to query robots: " +:+ str_PyError (items_failure r)) None))
            end
       else Raise (FormantError (FormantClientRequestError_init
                     ("Failed to query robots... " +:+ text r) None)),
       record_request
         (devices_query_request (_admin_api_endpoint (self w)) auth tags enabled_only) w1,
       l).
Proof.
  intros Hauth Hpost.
  unfold query_robots_body, _get_get_admin_endpoint. cbv zeta.
  unfold bind at 1. unfold gets at 1. unfold bind at 1. rewrite Hauth.
  unfold bind at 1, requests_post.
  change {| url := _admin_api_endpoint (self w) +:+ "/devices/query";
            headers := Some auth;
            json_arg := if enabled_only
                        then JObj [("tags", tags); ("enabled", JBool true)]
                        else JObj [("tags", tags)] |}
    with (devices_query_request (_admin_api_endpoint (self w)) auth tags enabled_only).
  rewrite Hpost. destruct (status_code r =? 200).
  - unfold try_except. rewrite items_expression.
    destruct (items_of r); cbn [is_Exception app]; unfold raise; by rewrite ?app_nil_r.
  - unfold raise. by rewrite app_nil_r.
Qed.
End DeviceQuery.

(** C5, as the code has it: once the headers have been obtained, an attempt
    of [query_robots] whose response is a 200 with a malformed body, or has
    another status, raises a [FormantClientRequestError] built without the
    flag, hence retryable, which carries the parse failure or the response
    text; and the decorated [query_robots] never ends in a non-retryable
    [FormantClientRequestError]. *)
Theorem query_robots_failures_are_retryable `{Runtime} w auth w1 l tags enabled_only r :
  _get_authenticated_headers w = (Return auth, w1, l) ->
  http_post (sent w1)
    (devices_query_request (_admin_api_endpoint (self w)) auth tags enabled_only)
    = Responded r ->
  (status_code r = 200 /\ items_of r = None) \/ status_code r <> 200 ->
  (exists e,
     query_robots_body tags enabled_only w
       = (Raise (FormantError e),
          record_request
            (devices_query_request (_admin_api_endpoint (self w)) auth tags enabled_only) w1,
          l)
     /\ retryable e = true
     /\ message e = if status_code r =? 200
                    then "Failed to query robots: " +:+ str_PyError (items_failure r)
                    else "Failed to query robots... " +:+ text r)
  /\ no_fatal_error (query_robots tags enabled_only w).1.1.
Proof.
  intros Hauth Hpost Hbad. split.
  - rewrite (query_robots_body_outcome _ _ _ _ _ _ _ Hauth Hpost).
    destruct Hbad as [[-> ->] | Hstatus].
    + cbn [Z.eqb Pos.eqb]. eauto.
    + apply Z.eqb_neq in Hstatus as ->. eauto.
  - apply never_fatal_wrapper_loop, never_fatal_query_robots_body.
Qed.

Lemma query_robots_failures_are_retryable_witness :
  let rt := sample_runtime garbled_backend in
  exists e,
    @query_robots_body rt (JObj []) false logged_in_world
      = (Raise (FormantError e),
         record_request (devices_query_request sample_endpoint sample_headers (JObj []) false)
           logged_in_world,
         [])
    /\ retryable e = true
    /\ message e = "Failed to query robots: Expecting value: line 1 column 1 (char 0)".
Proof.
  intros rt.
  destruct (@query_robots_failures_are_retryable rt logged_in_world sample_headers
              logged_in_world [] (JObj []) false
              {| status_code := 200; text := "<html>"; json_body := None |})
    as [(e & Hrun & Hretry & Hmsg) _].
  - by vm_compute.
  - reflexivity.
  - left. split; reflexivity.
  - exists e. split; [exact Hrun | split; [exact Hretry | exact Hmsg]].
Defined.

(** C5, as stated, fails: on a 200 response whose body does not decode, the
    error of the attempt is retryable, and so is the error that the decorated
    method ends with. *)
Lemma malformed_body_error_not_fatal :
  let rt := sample_runtime garbled_backend in
  (exists e w l,
     @query_robots_body rt (JObj []) false logged_in_world = (Raise (FormantError e), w, l)
     /\ retryable e <> false)
  /\ (exists e w l,
        @query_robots rt (JObj []) false logged_in_world = (Raise (FormantError e), w, l)
        /\ retryable e <> false).
Proof.
  intros rt. split; eexists _, _, _; (split; [by vm_compute | by cbn]).
Qed.

(** ** The paginated fetch *)

Section Pagination.
Context `{Runtime}.
Variables (base deviceId : string).

Local Abbreviation endpoint := (base +:+ "/events/query").

(** Running [m] again from the state it left changes nothing when [m]
    returns the same value there without effect. *)
Lemma bind_after {St A B} (m : M St A) (k : A -> M St B) s a s1 l1 :
  m s = (Return a, s1, l1) ->
  m s1 = (Return a, s1, []) ->
  bind m k s = let '(o, s2, l2) := bind m k s1 in (o, s2, l1 ++ l2).
Proof.
  intros Hm Hm1. unfold bind. rewrite Hm, Hm1.
  by destruct (k a s1) as [[o s2] l2].
Qed.

Lemma record_requests_nil w : record_requests [] w = w.
Proof. destruct w. unfold record_requests. cbn. by rewrite app_nil_r. Qed.

Lemma record_requests_cons_r req reqs w :
  record_request req (record_requests reqs w) = record_requests (reqs ++ [req]) w.
Proof. unfold record_requests, record_request. cbn. by rewrite <- app_assoc. Qed.

Lemma record_requests_cons req reqs w :
  record_requests reqs (record_request req w) = record_requests (req :: reqs) w.
Proof. unfold record_requests, record_request. cbn. by rewrite <- app_assoc. Qed.

(** An iteration starts by obtaining the headers; what it does after a
    successful login is what it does on the logged-in client. *)
Lemma fetch_pages_after_headers fuel page_offset acc w auth w1 l :
  _get_authenticated_headers w = (Return auth, w1, l) ->
  fetch_pages (S fuel) endpoint deviceId page_offset acc w
    = let '(o, w2, l2) := fetch_pages (S fuel) endpoint deviceId page_offset acc w1 in
      (o, w2, l ++ l2).
Proof.
  intros Hauth.
  destruct (get_authenticated_headers_returns _ _ _ _ Hauth) as [Hw1 ->].
  cbn [fetch_pages]. cbv zeta.
  eapply bind_after; [exact Hauth | by apply get_authenticated_headers_cached].
Qed.

(** An iteration whose request is answered 200 with a list of items. *)
Lemma fetch_pages_page fuel page_offset acc w r p :
  authenticated w ->
  http_post (sent w)
    (page_request base (_authenticated_headers (self w)) deviceId page_offset)
    = Responded r ->
  status_code r = 200 ->
  items_of r = Some (JArr p) ->
  fetch_pages (S fuel) endpoint deviceId page_offset acc w
    = if Z.of_nat (length p) <? page_size
      then (Return (acc ++ p),
            record_request
              (page_request base (_authenticated_headers (self w)) deviceId page_offset) w,
            [])
      else fetch_pages fuel endpoint deviceId (page_offset + page_size) (acc ++ p)
             (record_request
                (page_request base (_authenticated_headers (self w)) deviceId page_offset)
                w).
Proof.
  intros Hw Hpost Hstatus Hitems.
  cbn [fetch_pages]. cbv zeta. unfold bind at 1.
  rewrite (get_authenticated_headers_cached w Hw).
  unfold bind at 1, requests_post.
  fold (page_request base (_authenticated_headers (self w)) deviceId page_offset).
  rewrite Hpost, Hstatus. cbn [Z.eqb Pos.eqb negb].
  unfold items_of in Hitems. unfold Response_json.
  destruct (json_body r) as [[| | | | | | entries] |]; try discriminate.
  step. cbn [getitem]. rewrite Hitems. step. cbn [iterate len]. step.
  destruct (Z.of_nat (length p) <? page_size); [done |].
  by destruct (fetch_pages fuel _ _ _ _ _) as [[o w2] l2].
Qed.

(** An iteration whose request is answered with another status. *)
Lemma fetch_pages_rejected fuel page_offset acc w r :
  authenticated w ->
  http_post (sent w)
    (page_request base (_authenticated_headers (self w)) deviceId page_offset)
    = Responded r ->
  status_code r <> 200 ->
  fetch_pages (S fuel) endpoint deviceId page_offset acc w
    = (Raise (Builtin (AttributeError "status")),
       record_request
         (page_request base (_authenticated_headers (self w)) deviceId page_offset) w,
       []).
Proof.
  intros Hw Hpost Hstatus.
  cbn [fetch_pages]. cbv zeta. unfold bind at 1.
  rewrite (get_authenticated_headers_cached w Hw).
  unfold bind at 1, requests_post.
  fold (page_request base (_authenticated_headers (self w)) deviceId page_offset).
  rewrite Hpost. apply Z.eqb_neq in Hstatus as ->. done.
Qed.

(** The loop goes through pages of at least [page_size] items, appending
    each and advancing the offset. *)
Lemma fetch_pages_full full : forall fuel page_offset acc w,
  authenticated w ->
  Forall (fun p => page_size <= Z.of_nat (length p)) full ->
  serves (sent w) base (_authenticated_headers (self w)) deviceId page_offset full ->
  fetch_pages (length full + fuel) endpoint deviceId page_offset acc w
    = fetch_pages fuel endpoint deviceId
        (page_offset + page_size * Z.of_nat (length full)) (acc ++ concat full)
        (record_requests
           (page_requests base (_authenticated_headers (self w)) deviceId page_offset
              (length full)) w).
Proof.
  induction full as [| p full IH]; intros fuel page_offset acc w Hw Hfull Hserves.
  - cbn [length concat page_requests Nat.add].
    by rewrite record_requests_nil, app_nil_r, Z.mul_0_r, Z.add_0_r.
  - destruct Hserves as [(r & Hpost & Hstatus & Hitems) Hrest].
    apply Forall_cons in Hfull as [Hp Hfull].
    cbn [length Nat.add].
    rewrite (fetch_pages_page _ _ _ _ _ _ Hw Hpost Hstatus Hitems).
    apply Z.ltb_ge in Hp as ->.
    rewrite IH; [| done | done | done].
    cbn [page_requests concat self record_request].
    rewrite record_requests_cons, app_assoc.
    f_equal. lia.
Qed.

Lemma page_requests_snoc auth page_offset n :
  page_requests base auth deviceId page_offset (S n)
    = page_requests base auth deviceId page_offset n
      ++ [page_request base auth deviceId (page_offset + page_size * Z.of_nat n)].
Proof.
  revert page_offset. induction n as [| n IH]; intros page_offset.
  - cbn [page_requests app]. by rewrite Z.mul_0_r, Z.add_0_r.
  - change (page_requests base auth deviceId page_offset (S (S n)))
      with (page_request base auth deviceId page_offset
            :: page_requests base auth deviceId (page_offset + page_size) (S n)).
    rewrite IH.
    replace (page_offset + page_size + page_size * Z.of_nat n)
      with (page_offset + page_size * Z.of_nat (S n)) by lia.
    done.
Qed.

Lemma serves_app hist auth page_offset pages1 pages2 :
  serves hist base auth deviceId page_offset (pages1 ++ pages2) <->
  serves hist base auth deviceId page_offset pages1
  /\ serves (hist ++ page_requests base auth deviceId page_offset (length pages1)) base auth
       deviceId (page_offset + page_size * Z.of_nat (length pages1)) pages2.
Proof.
  revert hist page_offset.
  induction pages1 as [| p pages1 IH]; intros hist page_offset.
  - cbn [app serves length page_requests]. rewrite app_nil_r, Z.mul_0_r, Z.add_0_r. tauto.
  - cbn [app serves length page_requests]. rewrite IH, <- app_assoc. cbn [app].
    replace (page_offset + page_size + page_size * Z.of_nat (length pages1))
      with (page_offset + page_size * Z.of_nat (S (length pages1))) by lia.
    tauto.
Qed.
End Pagination.

Section TaskList.
Context `{Runtime}.
Variables (deviceId : string) (w w1 : World) (auth : gmap string string) (l : list string).
Hypothesis headers_obtained : _get_authenticated_headers w = (Return auth, w1, l).

Local Abbreviation base := (_admin_api_endpoint (self w)).

(** The body of [get_task_list_for_device_sync] goes through the pages of at
    least [page_size] items and carries on from there. *)
Lemma get_task_list_body_full fuel full :
  Forall (fun p => page_size <= Z.of_nat (length p)) full ->
  serves (sent w1) base auth deviceId 0 full ->
  get_task_list_for_device_sync_body (length full + S fuel) deviceId w
    = let '(o, w2, l2) :=
        fetch_pages (S fuel) (base +:+ "/events/query") deviceId
          (page_size * Z.of_nat (length full)) (concat full)
          (record_requests (page_requests base auth deviceId 0 (length full)) w1) in
      (o, w2, l ++ l2).
Proof.
  intros Hfull Hserves.
  destruct (get_authenticated_headers_returns _ _ _ _ headers_obtained) as [Hw1 Hauth].
  unfold get_task_list_for_device_sync_body, _get_get_admin_endpoint.
  unfold bind at 1, gets at 1.
  replace (length full + S fuel)%nat with (S (length full + fuel)) by lia.
  rewrite (fetch_pages_after_headers _ _ _ _ _ _ _ _ _ headers_obtained).
  replace (S (length full + fuel)) with (length full + S fuel)%nat by lia.
  rewrite Hauth in Hserves |- *.
  rewrite (fetch_pages_full _ _ full (S fuel) 0 [] w1 Hw1 Hfull Hserves).
  cbn [app]. rewrite Z.add_0_l.
  by destruct (fetch_pages _ _ _ _ _ _) as [[o w2] l2].
Qed.

(** Pages of at least [page_size] items followed by a shorter one. *)
Lemma get_task_list_run fuel full last :
  Forall (fun p => page_size <= Z.of_nat (length p)) full ->
  Z.of_nat (length last) < page_size ->
  serves (sent w1) base auth deviceId 0 (full ++ [last]) ->
  (length full < fuel)%nat ->
  get_task_list_for_device_sync fuel deviceId w
    = (Return (Some (concat (full ++ [last]))),
       record_requests (page_requests base auth deviceId 0 (length (full ++ [last]))) w1,
       l).
Proof.
  intros Hfull Hlast Hserves Hfuel.
  destruct (get_authenticated_headers_returns _ _ _ _ headers_obtained) as [Hw1 Hauth].
  apply serves_app in Hserves as [Hserves [(r & Hpost & Hstatus & Hitems) _]].
  unfold get_task_list_for_device_sync, formant_client_retry_on_failure.
  change (Z.to_nat NUM_RETRIES) with 5%nat.
  apply wrapper_loop_return.
  replace fuel with (length full + S (fuel - length full - 1))%nat by lia.
  rewrite (get_task_list_body_full _ _ Hfull Hserves).
  rewrite Z.add_0_l in Hpost. rewrite Hauth in Hpost |- *.
  erewrite fetch_pages_page; [| done | exact Hpost | done | done].
  apply Z.ltb_lt in Hlast as ->.
  rewrite length_app, Nat.add_1_r, page_requests_snoc, Z.add_0_l.
  rewrite record_requests_cons_r, concat_app, app_nil_r. cbn [concat]. by rewrite app_nil_r.
Qed.

(** Pages of at least [page_size] items followed by a response with a status
    other than 200. *)
Lemma get_task_list_rejected fuel full r :
  Forall (fun p => page_size <= Z.of_nat (length p)) full ->
  serves (sent w1) base auth deviceId 0 full ->
  http_post (sent w1 ++ page_requests base auth deviceId 0 (length full))
    (page_request base auth deviceId (page_size * Z.of_nat (length full))) = Responded r ->
  status_code r <> 200 ->
  (length full < fuel)%nat ->
  get_task_list_for_device_sync fuel deviceId w
    = (Raise (Builtin (AttributeError "status")),
       record_requests (page_requests base auth deviceId 0 (S (length full))) w1,
       l).
Proof.
  intros Hfull Hserves Hpost Hstatus Hfuel.
  destruct (get_authenticated_headers_returns _ _ _ _ headers_obtained) as [Hw1 Hauth].
  unfold get_task_list_for_device_sync, formant_client_retry_on_failure.
  change (Z.to_nat NUM_RETRIES) with 5%nat.
  apply wrapper_loop_uncaught.
  replace fuel with (length full + S (fuel - length full - 1))%nat by lia.
  rewrite (get_task_list_body_full _ _ Hfull Hserves).
  rewrite Hauth in Hpost |- *.
  erewrite fetch_pages_rejected; [| done | exact Hpost | done].
  rewrite page_requests_snoc, Z.add_0_l, record_requests_cons_r. by rewrite app_nil_r.
Qed.
End TaskList.

(** ** Concatenated pages *)

Section Concat.
Context {A : Type}.
Implicit Types (pages : list (list A)).

Lemma length_concat_pages pages :
  length (concat pages) = sum_list_with length pages.
Proof.
  induction pages as [| p pages IH]; [done |].
  cbn [concat sum_list_with]. by rewrite length_app, IH.
Qed.

Lemma sum_list_with_map_length pages :
  sum_list_with length pages = sum_list (map length pages).
Proof. induction pages as [| p pages IH]; [done | cbn; by rewrite IH]. Qed.

(** Item [i] of page [j] sits in the concatenation after all items of the
    pages before it. *)
Lemma lookup_concat_page pages j p i x :
  pages !! j = Some p ->
  p !! i = Some x ->
  concat pages !! (sum_list_with length (take j pages) + i)%nat = Some x.
Proof.
  revert j. induction pages as [| q pages IH]; intros j Hj Hi; [done |].
  destruct j as [| j]; cbn [concat take sum_list_with].
  - injection Hj as ->. by apply lookup_app_l_Some.
  - rewrite lookup_app_r by lia.
    replace (length q + sum_list_with length (take j pages) + i - length q)%nat
      with (sum_list_with length (take j pages) + i)%nat by lia.
    by apply IH.
Qed.
End Concat.

(** C1: once the headers have been obtained, and the backend answers the
    consecutive page requests from offset 0 on with pages of at least 100
    items followed by one of fewer than 100 (possibly none), the fetch
    returns the items of all these pages in arrival order after one request
    per page, at offsets 0, 100, 200, ..., and stops there.  In particular
    pages of sizes 100, 100 and 37 take three requests and give 237 items,
    and an empty first page takes one request and gives no item. *)
Theorem paginated_fetch_stops_at_short_page `{Runtime} fuel deviceId w auth w1 l full last :
  _get_authenticated_headers w = (Return auth, w1, l) ->
  Forall (fun p => page_size <= Z.of_nat (length p)) full ->
  Z.of_nat (length last) < page_size ->
  serves (sent w1) (_admin_api_endpoint (self w)) auth deviceId 0 (full ++ [last]) ->
  (length full < fuel)%nat ->
  let request := page_request (_admin_api_endpoint (self w)) auth deviceId in
  let requests :=
    page_requests (_admin_api_endpoint (self w)) auth deviceId 0 (length (full ++ [last])) in
  get_task_list_for_device_sync fuel deviceId w
    = (Return (Some (concat (full ++ [last]))), record_requests requests w1, l)
  /\ (map length (full ++ [last]) = [100; 100; 37]%nat ->
      requests = [request 0; request 100; request 200]
      /\ length (concat (full ++ [last])) = 237%nat)
  /\ (full ++ [last] = [[]] ->
      requests = [request 0] /\ concat (full ++ [last]) = []).
Proof.
  intros Hauth Hfull Hlast Hserves Hfuel request requests. split; [| split].
  - by apply get_task_list_run.
  - intros Hsizes. split.
    + subst requests. by rewrite <- (length_map length), Hsizes.
    + by rewrite length_concat_pages, sum_list_with_map_length, Hsizes.
  - intros Hpages. subst requests. by rewrite Hpages.
Qed.

Lemma paginated_fetch_stops_at_short_page_witness :
  let rt := sample_runtime (paging_backend (numbered_events 237)) in
  let request := page_request sample_endpoint sample_headers "dev-1" in
  @get_task_list_for_device_sync rt 10 "dev-1" fresh_world
    = (Return (Some (numbered_events 237)),
       {| self := self logged_in_world;
          sent := [login_request fresh_world; request 0; request 100; request 200] |},
       []).
Proof.
  intros rt request.
  refine (proj1 (@paginated_fetch_stops_at_short_page rt 10 "dev-1" fresh_world
                   sample_headers
                   {| self := self logged_in_world; sent := [login_request fresh_world] |} []
                   [take 100 (numbered_events 237); take 100 (drop 100 (numbered_events 237))]
                   (drop 200 (numbered_events 237)) _ _ _ _ _)).
  - by vm_compute.
  - repeat constructor; by vm_compute.
  - by vm_compute.
  - repeat split; eexists; (split; [by vm_compute | split; reflexivity]).
  - cbn. lia.
Defined.

(** An empty first page: one request, no item. *)
Example empty_first_page :
  @get_task_list_for_device_sync (sample_runtime (paging_backend [])) 10 "dev-1" logged_in_world
    = (Return (Some []),
       record_request (page_request sample_endpoint sample_headers "dev-1" 0) logged_in_world,
       []).
Proof. by vm_compute. Qed.

(** Three full pages and nothing more: the fourth request finds an empty
    page. *)
Example three_full_pages :
  let run := @get_task_list_for_device_sync
               (sample_runtime (paging_backend (numbered_events 300))) 10 "dev-1"
               logged_in_world in
  run.1.1 = Return (Some (numbered_events 300)) /\ length (sent run.1.2) = 4%nat.
Proof. by vm_compute. Qed.

(** C7: under the same conditions the result is the concatenation of the
    pages in fetch order: its length is the sum of the page lengths, and item
    [i] of page [j] sits at position [i] after all items of the earlier
    pages, so nothing is dropped, repeated or reordered. *)
Theorem aggregated_result_is_concatenation `{Runtime} fuel deviceId w auth w1 l full last :
  _get_authenticated_headers w = (Return auth, w1, l) ->
  Forall (fun p => page_size <= Z.of_nat (length p)) full ->
  Z.of_nat (length last) < page_size ->
  serves (sent w1) (_admin_api_endpoint (self w)) auth deviceId 0 (full ++ [last]) ->
  (length full < fuel)%nat ->
  let pages := full ++ [last] in
  exists items,
    (get_task_list_for_device_sync fuel deviceId w).1.1 = Return (Some items)
    /\ items = concat pages
    /\ length items = sum_list_with length pages
    /\ (forall j p i x,
          pages !! j = Some p -> p !! i = Some x ->
          items !! (sum_list_with length (take j pages) + i)%nat = Some x).
Proof.
  intros Hauth Hfull Hlast Hserves Hfuel pages. exists (concat pages).
  split; [| split; [done | split]].
  - by rewrite (get_task_list_run deviceId w w1 auth l Hauth fuel full last).
  - apply length_concat_pages.
  - intros j p i x. apply lookup_concat_page.
Qed.

Lemma aggregated_result_is_concatenation_witness :
  let rt := sample_runtime (paging_backend (numbered_events 250)) in
  exists items,
    (@get_task_list_for_device_sync rt 10 "dev-1" logged_in_world).1.1 = Return (Some items)
    /\ items = numbered_events 250
    /\ length items = 250%nat.
Proof.
  intros rt.
  destruct (@aggregated_result_is_concatenation rt 10 "dev-1" logged_in_world
              sample_headers logged_in_world []
              [take 100 (numbered_events 250); take 100 (drop 100 (numbered_events 250))]
              (drop 200 (numbered_events 250)))
    as (items & Hrun & Hitems & Hlen & _).
  - by vm_compute.
  - repeat constructor; by vm_compute.
  - by vm_compute.
  - repeat split; eexists; (split; [by vm_compute | split; reflexivity]).
  - cbn. lia.
  - exists items. split; [exact Hrun | split; [exact Hitems | exact Hlen]].
Defined.

(** C6 at work: when a page request is answered with a status other than
    200, after any number of full pages, building the error message reads
    [response.status], which a [requests.Response] does not have; the fetch
    ends in that [AttributeError], which the decorator does not catch,
    instead of a [FormantClientRequestError] carrying the response text.
    No partial result is returned. *)
Theorem page_failure_raises_attribute_error `{Runtime} fuel deviceId w auth w1 l full r :
  _get_authenticated_headers w = (Return auth, w1, l) ->
  Forall (fun p => page_size <= Z.of_nat (length p)) full ->
  serves (sent w1) (_admin_api_endpoint (self w)) auth deviceId 0 full ->
  http_post
    (sent w1 ++ page_requests (_admin_api_endpoint (self w)) auth deviceId 0 (length full))
    (page_request (_admin_api_endpoint (self w)) auth deviceId
       (page_size * Z.of_nat (length full)))
    = Responded r ->
  status_code r <> 200 ->
  (length full < fuel)%nat ->
  get_task_list_for_device_sync fuel deviceId w
    = (Raise (Builtin (AttributeError "status")),
       record_requests
         (page_requests (_admin_api_endpoint (self w)) auth deviceId 0 (S (length full))) w1,
       l).
Proof. intros. by apply get_task_list_rejected with (r := r). Qed.

Lemma page_failure_raises_attribute_error_witness :
  @get_task_list_for_device_sync (sample_runtime broken_backend) 10 "dev-1" logged_in_world
    = (Raise (Builtin (AttributeError "status")),
       record_request (page_request sample_endpoint sample_headers "dev-1" 0) logged_in_world,
       []).
Proof.
  refine (@page_failure_raises_attribute_error (sample_runtime broken_backend) 10 "dev-1"
            logged_in_world sample_headers logged_in_world [] []
            {| status_code := 500; text := "boom"; json_body := None |} _ _ _ _ _ _).
  - by vm_compute.
  - constructor.
  - exact I.
  - reflexivity.
  - cbn. lia.
  - cbn. lia.
Defined.

(** ** A login that keeps failing *)

Section LoginOutage.
Context `{Runtime}.
Variable w : World.
Hypothesis cache_empty : _authenticated_headers (self w) = ∅.
Hypothesis login_rejected :
  forall hist, exists r, http_post hist (login_request w) = Responded r /\ status_code r <> 200.

Lemma record_requests_app reqs1 reqs2 (w' : World) :
  record_requests reqs2 (record_requests reqs1 w') = record_requests (reqs1 ++ reqs2) w'.
Proof. unfold record_requests. cbn. by rewrite <- app_assoc. Qed.

(** [k] login attempts in a row fail, each with one POST and no log entry. *)
Lemma authenticate_body_fails k : forall w',
  self w' = self w ->
  exists trace,
    length trace = k /\ own_log trace = []
    /\ fails_with _authenticate_body trace w'
         (record_requests (replicate k (login_request w)) w').
Proof.
  induction k as [| k IH]; intros w' Hself.
  - exists []. repeat split. cbn [replicate]. rewrite record_requests_nil. constructor.
  - assert (Hreq : login_request w' = login_request w)
      by (unfold login_request; by rewrite Hself).
    destruct (login_rejected (sent w')) as (r & Hpost & Hstatus).
    rewrite <- Hreq in Hpost.
    assert (Hempty : _authenticated_headers (self w') = ∅) by (by rewrite Hself).
    pose proof (authenticate_body_rejected w' r Hempty Hpost Hstatus) as Hbody.
    destruct (IH (record_request (login_request w') w') Hself) as (trace & Hlen & Hown & Hrest).
    eexists ((_, []) :: trace). split; [by cbn; rewrite Hlen |]. split; [done |].
    econstructor; [exact Hbody | done |].
    cbn [replicate]. rewrite record_requests_cons in Hrest.
    by rewrite Hreq in Hrest |- *.
Qed.

(** The decorated [_authenticate] gives up after [NUM_RETRIES] POSTs and as
    many warnings. *)
Lemma authenticate_gives_up w' :
  self w' = self w ->
  exists log,
    length log = 5%nat
    /\ _authenticate w'
       = (Raise (FormantError (retries_exhausted NUM_RETRIES)),
          record_requests (replicate 5 (login_request w)) w', log).
Proof.
  intros Hself.
  destruct (authenticate_body_fails 5 w' Hself) as (trace & Hlen & Hown & Hfail).
  exists (retry_log NUM_RETRIES 0 trace). split.
  - by rewrite length_retry_log, Hlen, Hown.
  - unfold _authenticate.
    by rewrite (retry_exhausted_run NUM_RETRIES true _ trace _ _ Hlen Hfail).
Qed.

(** So an attempt of [query_robots] fails before it sends its own request. *)
Lemma query_robots_body_gives_up tags enabled_only w' :
  self w' = self w ->
  exists log,
    length log = 5%nat
    /\ query_robots_body tags enabled_only w'
       = (Raise (FormantError (retries_exhausted NUM_RETRIES)),
          record_requests (replicate 5 (login_request w)) w', log).
Proof.
  intros Hself. destruct (authenticate_gives_up w' Hself) as (log & Hlen & Hrun).
  exists log. split; [done |].
  unfold query_robots_body, _get_get_admin_endpoint, _get_authenticated_headers. cbv zeta.
  unfold bind at 1, gets at 1. unfold bind at 1. unfold bind at 1.
  by rewrite Hrun.
Qed.

Lemma query_robots_body_fails tags enabled_only k : forall w',
  self w' = self w ->
  exists trace,
    length trace = k /\ length (own_log trace) = (5 * k)%nat
    /\ Forall (fun entry => entry.1 = retries_exhausted NUM_RETRIES) trace
    /\ fails_with (query_robots_body tags enabled_only) trace w'
         (record_requests (replicate (5 * k) (login_request w)) w').
Proof.
  induction k as [| k IH]; intros w' Hself.
  - exists []. repeat split; [constructor |]. cbn [replicate Nat.mul].
    rewrite record_requests_nil. constructor.
  - destruct (query_robots_body_gives_up tags enabled_only w' Hself) as (log & Hlog & Hrun).
    destruct (IH (record_requests (replicate 5 (login_request w)) w') Hself)
      as (trace & Hlen & Hown & Hall & Hrest).
    exists ((retries_exhausted NUM_RETRIES, log) :: trace).
    split; [by cbn; rewrite Hlen |]. split; [| split].
    + unfold own_log in *. cbn [map concat snd]. rewrite length_app, Hlog, Hown. lia.
    + by constructor.
    + econstructor; [exact Hrun | done |].
      rewrite record_requests_app, <- replicate_add in Hrest.
      by replace (5 * S k)%nat with (5 + 5 * k)%nat by lia.
Qed.
End LoginOutage.

(** C10: on a client with no cached headers, when every login POST is
    answered with a status other than 200, one call of [query_robots] sends
    exactly [NUM_RETRIES * NUM_RETRIES = 25] requests, all of them login
    POSTs, logs 25 warnings for the login attempts and 5 for its own, and
    then raises the exhaustion error of the outer wrapper. *)
Theorem login_outage_costs_25_posts `{Runtime} tags enabled_only w :
  _authenticated_headers (self w) = ∅ ->
  (forall hist, exists r,
      http_post hist (login_request w) = Responded r /\ status_code r <> 200) ->
  exists log,
    query_robots tags enabled_only w
      = (Raise (FormantError (retries_exhausted NUM_RETRIES)),
         record_requests
           (replicate (Z.to_nat (NUM_RETRIES * NUM_RETRIES)) (login_request w)) w,
         log)
    /\ length log = 30%nat.
Proof.
  intros Hempty Hlogin.
  destruct (query_robots_body_fails w Hempty Hlogin tags enabled_only 5 w eq_refl)
    as (trace & Hlen & Hown & _ & Hfail).
  exists (retry_log NUM_RETRIES 0 trace). split.
  - unfold query_robots.
    by rewrite (retry_exhausted_run NUM_RETRIES true _ trace _ _ Hlen Hfail).
  - by rewrite length_retry_log, Hlen, Hown.
Qed.

Lemma login_outage_costs_25_posts_witness :
  exists log,
    @query_robots (sample_runtime unavailable_backend) (JObj []) false fresh_world
      = (Raise (FormantError {| message := "Request failed after 5 retries";
                                retryable := true |}),
         {| self := sample_client; sent := replicate 25 (login_request fresh_world) |},
         log)
    /\ length log = 30%nat.
Proof.
  refine (@login_outage_costs_25_posts (sample_runtime unavailable_backend) (JObj []) false
            fresh_world _ _).
  - reflexivity.
  - intros hist. eexists. split; [reflexivity | by cbn].
Defined.

(** * Further properties of the retry decorator *)

(** X1: with [max_retries <= 0] the loop body never runs: [func] is not
    invoked at all, the state is untouched, nothing is logged, and the
    wrapper goes straight to the code after the loop. *)
Theorem retry_without_budget {St A : Type} (n : Z) (propegrate_error : bool)
    (func : M St A) s :
  n <= 0 ->
  formant_client_retry_on_failure n propegrate_error func s
    = (if propegrate_error
       then Raise (FormantError (retries_exhausted n))
       else Return None,
       s, []).
Proof.
  intros Hn. unfold formant_client_retry_on_failure.
  replace (Z.to_nat n) with 0%nat by lia.
  cbn [wrapper_loop]. by destruct propegrate_error.
Qed.

Lemma retry_without_budget_witness :
  formant_client_retry_on_failure 0 true (flaky 0 "ok") 7%nat
    = (Raise (FormantError {| message := "Request failed after 0 retries";
                              retryable := true |}), 7%nat, []).
Proof. refine (retry_without_budget 0 true (flaky 0 "ok") 7%nat _). lia. Defined.

(** X2: with [propegrate_error=False], when all [n] invocations fail
    retryably the wrapper swallows the failure and returns [None], after one
    warning per invocation. *)
Theorem retry_exhausted_returns_none {St A : Type} (n : Z) (func : M St A) trace s s' :
  length trace = Z.to_nat n ->
  fails_with func trace s s' ->
  formant_client_retry_on_failure n false func s = (Return None, s', retry_log n 0 trace)
  /\ length (retry_log n 0 trace) = (Z.to_nat n + length (own_log trace))%nat.
Proof.
  intros Hlen Hfail. split.
  - by rewrite (retry_exhausted_run n false func trace s s' Hlen Hfail).
  - by rewrite length_retry_log, Hlen.
Qed.

Lemma retry_exhausted_returns_none_witness :
  formant_client_retry_on_failure 2 false (flaky 5 "ok") 0%nat
    = (Return None, 2%nat,
       ["Request failed with error: FormantClientRequestError: transient. Retrying (1/2)";
        "Request failed with error: FormantClientRequestError: transient. Retrying (2/2)"]).
Proof.
  pose (e := FormantClientRequestError_init "transient" None).
  refine (proj1 (retry_exhausted_returns_none 2 (flaky 5 "ok") [(e, []); (e, [])]
                   0%nat 2%nat _ _)).
  - reflexivity.
  - repeat (econstructor; try reflexivity).
Defined.

(** X3: the wrapper catches [FormantClientRequestError] only.  When an
    invocation raises anything else, that exception leaves the wrapper at
    once, whatever is left of the budget, with no warning for it. *)
Theorem retry_passes_other_exceptions {St A : Type} (n : Z) (propegrate_error : bool)
    (func : M St A) trace s s' e s1 l :
  Z.of_nat (length trace) < n ->
  fails_with func trace s s' ->
  func s' = (Raise (Builtin e), s1, l) ->
  formant_client_retry_on_failure n propegrate_error func s
    = (Raise (Builtin e), s1, retry_log n 0 trace ++ l).
Proof.
  intros Hk Hfail Hraise.
  unfold formant_client_retry_on_failure.
  replace (Z.to_nat n) with (length trace + S (Z.to_nat n - length trace - 1))%nat by lia.
  rewrite (wrapper_loop_fails _ _ _ _ _ _ Hfail).
  by rewrite (wrapper_loop_uncaught _ _ _ _ _ _ _ _ _ Hraise).
Qed.

Lemma retry_passes_other_exceptions_witness :
  formant_client_retry_on_failure 5 true (crashing_at 1) 0%nat
    = (Raise (Builtin TypeError), 2%nat,
       ["Request failed with error: FormantClientRequestError: transient. Retrying (1/5)"]).
Proof.
  refine (retry_passes_other_exceptions 5 true (crashing_at 1)
            [(FormantClientRequestError_init "transient" None, [])]
            0%nat 1%nat TypeError 2%nat [] _ _ _).
  - cbn. lia.
  - repeat (econstructor; try reflexivity).
  - reflexivity.
Defined.

(** The loop logs at most one warning per remaining iteration when the
    invocations log nothing themselves. *)
Lemma wrapper_loop_log_bound {St A : Type} max_retries propegrate_error (func : M St A) :
  (forall s, (func s).2 = []) ->
  forall remaining i s,
    (length (wrapper_loop max_retries propegrate_error func remaining i s).2 <= remaining)%nat.
Proof.
  intros Hquiet. induction remaining as [| remaining IH]; intros i s.
  - cbn [wrapper_loop]. by destruct propegrate_error.
  - specialize (Hquiet s). destruct (func s) as [[[a | [e | e] |] s1] l1] eqn:Hs;
      cbn [snd] in Hquiet; subst l1.
    + rewrite (wrapper_loop_return _ _ _ _ _ _ _ _ _ Hs). cbn. lia.
    + rewrite (wrapper_loop_uncaught _ _ _ _ _ _ _ _ _ Hs). cbn. lia.
    + destruct (retryable e) eqn:He.
      * rewrite (wrapper_loop_retry _ _ _ _ _ _ _ _ _ Hs He).
        specialize (IH (i + 1) s1).
        destruct (wrapper_loop _ _ _ remaining (i + 1) s1) as [[o s2] l2].
        cbn [snd app length] in *. lia.
      * rewrite (wrapper_loop_fatal _ _ _ _ _ _ _ _ _ Hs He). cbn. lia.
    + rewrite (wrapper_loop_out_of_fuel _ _ _ _ _ _ _ _ Hs). cbn. lia.
Qed.

(** X4: whatever the operation does, the wrapper retries it at most
    [max_retries] times: when the invocations log nothing themselves, the
    log of a wrapped call holds at most [max_retries] warnings. *)
Theorem retry_logs_at_most_budget {St A : Type} (n : Z) (propegrate_error : bool)
    (func : M St A) s :
  (forall s', (func s').2 = []) ->
  Z.of_nat (length (formant_client_retry_on_failure n propegrate_error func s).2)
    <= Z.max 0 n.
Proof.
  intros Hquiet. unfold formant_client_retry_on_failure.
  pose proof (wrapper_loop_log_bound n propegrate_error func Hquiet (Z.to_nat n) 0 s).
  lia.
Qed.

Lemma retry_logs_at_most_budget_witness :
  Z.of_nat (length (formant_client_retry_on_failure 3 true (flaky 9 "ok") 0%nat).2) <= 3.
Proof.
  refine (retry_logs_at_most_budget 3 true (flaky 9 "ok") 0%nat _).
  intros s'. unfold flaky. by destruct (s' <? 9)%nat.
Defined.

(** * Further properties of the client *)

(** ** Logging in *)

Section LoginRetries.
Context `{Runtime}.
Variable w : World.
Hypothesis cache_empty : _authenticated_headers (self w) = ∅.

Local Abbreviation after j := (record_requests (replicate j (login_request w)) w).

Lemma after_S j : record_request (login_request w) (after j) = after (S j).
Proof. by rewrite record_requests_cons_r, <- replicate_S_end. Qed.

(** Logins number [j] to [j + k - 1] are rejected. *)
Lemma login_rejections k : forall j,
  (forall i, (j <= i < j + k)%nat ->
     exists r, http_post (sent w ++ replicate i (login_request w)) (login_request w)
                 = Responded r /\ status_code r <> 200) ->
  exists trace,
    length trace = k /\ own_log trace = []
    /\ fails_with _authenticate_body trace (after j) (after (j + k)).
Proof.
  induction k as [| k IH]; intros j Hrejected.
  - exists []. repeat split. rewrite Nat.add_0_r. constructor.
  - destruct (Hrejected j ltac:(lia)) as (r & Hpost & Hstatus).
    pose proof (authenticate_body_rejected (after j) r cache_empty Hpost Hstatus) as Hbody.
    destruct (IH (S j)) as (trace & Hlen & Hown & Hrest).
    { intros i Hi. apply Hrejected. lia. }
    eexists ((_, []) :: trace). split; [by cbn; rewrite Hlen |]. split; [done |].
    econstructor; [exact Hbody | done |].
    rewrite after_S. by replace (j + S k)%nat with (S j + k)%nat by lia.
Qed.

Lemma login_accepted_after k r token :
  (k < 5)%nat ->
  (forall i, (i < k)%nat ->
     exists r', http_post (sent w ++ replicate i (login_request w)) (login_request w)
                  = Responded r' /\ status_code r' <> 200) ->
  http_post (sent w ++ replicate k (login_request w)) (login_request w) = Responded r ->
  status_code r = 200 ->
  access_token r = Some token ->
  exists log,
    _authenticate w
      = (Return (Some tt), set_authenticated_headers (bearer_headers token) (after (S k)), log)
    /\ length log = k.
Proof.
  intros Hk Hrejected Hpost Hstatus Htoken.
  destruct (login_rejections k 0) as (trace & Hlen & Hown & Hfail).
  { intros i Hi. apply Hrejected. lia. }
  cbn [Nat.add replicate] in Hfail. rewrite record_requests_nil in Hfail.
  pose proof (authenticate_body_login (after k) r token cache_empty Hpost Hstatus Htoken)
    as Hbody.
  exists (retry_log NUM_RETRIES 0 trace ++ []). split.
  - unfold _authenticate, formant_client_retry_on_failure.
    change (Z.to_nat NUM_RETRIES) with 5%nat.
    replace 5%nat with (length trace + S (4 - k))%nat by lia.
    rewrite (wrapper_loop_fails _ _ _ _ _ _ Hfail).
    rewrite (wrapper_loop_return _ _ _ _ _ _ _ _ _ Hbody).
    by rewrite after_S.
  - by rewrite app_nil_r, length_retry_log, Hlen, Hown.
Qed.

(** A login attempt that crashes is not retried. *)
Lemma authenticate_crash e :
  login_crash (http_post (sent w) (login_request w)) = Some e ->
  _authenticate w = (Raise (Builtin e), record_request (login_request w) w, []).
Proof.
  intros Hcrash.
  unfold _authenticate, formant_client_retry_on_failure.
  change (Z.to_nat NUM_RETRIES) with 5%nat. apply wrapper_loop_uncaught.
  unfold _authenticate_body, _get_get_admin_endpoint, requests_post. step.
  rewrite cache_empty, map_size_empty. cbn [Nat.ltb Nat.leb].
  fold (login_request w). unfold login_crash in Hcrash.
  destruct (http_post (sent w) (login_request w)) as [r |]; [| by injection Hcrash as <-].
  destruct (status_code r =? 200); [| discriminate].
  unfold access_token, access_token_failure in Hcrash. unfold Response_json.
  destruct (json_body r) as [[| | | | | | entries] |];
    try (by injection Hcrash as <-).
  step. cbn [getitem].
  destruct (assoc "authentication" entries) as [[| | | | | | inner] |];
    try (by injection Hcrash as <-).
  step. cbn [getitem].
  destruct (assoc "accessToken" inner); [discriminate | by injection Hcrash as <-].
Qed.
End LoginRetries.

(** X5: on a client with no cached headers, when the first [k < 5] login
    POSTs are answered with a status other than 200 and the next one with a
    200 holding a token, obtaining the headers succeeds: it returns the
    Bearer headers after exactly [k + 1] login POSTs and [k] warnings, and
    caches them. *)
Theorem login_succeeds_after_retries `{Runtime} w k r token :
  _authenticated_headers (self w) = ∅ ->
  (k < 5)%nat ->
  (forall i, (i < k)%nat ->
     exists r', http_post (sent w ++ replicate i (login_request w)) (login_request w)
                  = Responded r' /\ status_code r' <> 200) ->
  http_post (sent w ++ replicate k (login_request w)) (login_request w) = Responded r ->
  status_code r = 200 ->
  access_token r = Some token ->
  exists log,
    _get_authenticated_headers w
      = (Return (bearer_headers token),
         set_authenticated_headers (bearer_headers token)
           (record_requests (replicate (S k) (login_request w)) w),
         log)
    /\ length log = k.
Proof.
  intros Hempty Hk Hrejected Hpost Hstatus Htoken.
  destruct (login_accepted_after w Hempty k r token Hk Hrejected Hpost Hstatus Htoken)
    as (log & Hrun & Hlen).
  exists (log ++ []). split; [| by rewrite app_nil_r].
  unfold _get_authenticated_headers, bind. by rewrite Hrun.
Qed.

Lemma login_succeeds_after_retries_witness :
  exists log,
    @_get_authenticated_headers (sample_runtime (recovering_backend 2)) fresh_world
      = (Return sample_headers,
         {| self := self logged_in_world; sent := replicate 3 (login_request fresh_world) |},
         log)
    /\ length log = 2%nat.
Proof.
  refine (@login_succeeds_after_retries (sample_runtime (recovering_backend 2)) fresh_world
            2 sample_login_response (JStr "t0k3n") _ _ _ _ _ _).
  - reflexivity.
  - lia.
  - intros i Hi. eexists. split; [| by instantiate (1 :=
      {| status_code := 503; text := "service unavailable"; json_body := None |})].
    destruct i as [| [| i]]; [reflexivity | reflexivity | lia].
  - reflexivity.
  - reflexivity.
  - reflexivity.
Defined.

(** X6: a login attempt that crashes is not retried.  When the login POST
    fails in transport, or is answered 200 with a body that does not decode
    or holds no [authentication.accessToken], the exception
    ([RequestException], [JSONDecodeError], [KeyError] or [TypeError]) is not
    a [FormantClientRequestError]: it leaves [_get_authenticated_headers]
    after that one POST, with no warning, and the cache stays empty. *)
Theorem login_crash_is_not_retried `{Runtime} w e :
  _authenticated_headers (self w) = ∅ ->
  login_crash (http_post (sent w) (login_request w)) = Some e ->
  _get_authenticated_headers w
    = (Raise (Builtin e), record_request (login_request w) w, [])
  /\ _authenticated_headers (self (_get_authenticated_headers w).1.2) = ∅.
Proof.
  intros Hempty Hcrash.
  assert (Hrun : _get_authenticated_headers w
                 = (Raise (Builtin e), record_request (login_request w) w, [])).
  { unfold _get_authenticated_headers, bind.
    by rewrite (authenticate_crash w Hempty e Hcrash). }
  by rewrite Hrun.
Qed.

Lemma login_crash_is_not_retried_witness :
  @_get_authenticated_headers (sample_runtime tokenless_backend) fresh_world
    = (Raise (Builtin (KeyError "accessToken")),
       record_request (login_request fresh_world) fresh_world, []).
Proof.
  refine (proj1 (@login_crash_is_not_retried (sample_runtime tokenless_backend) fresh_world
                   (KeyError "accessToken") _ _)); reflexivity.
Defined.

(** ** Querying the devices *)

(** X7: once the headers have been obtained, when the query POST is answered
    200 with a body whose ["items"] entry is [v], [query_robots] returns
    [v], whatever JSON value it is, after that single POST, which carries
    the cached headers and the tag filter (with ["enabled": true] exactly
    when [enabled_only] is set), and logs nothing of its own. *)
Theorem query_robots_returns_items `{Runtime} w auth w1 l tags enabled_only r v :
  _get_authenticated_headers w = (Return auth, w1, l) ->
  http_post (sent w1)
    (devices_query_request (_admin_api_endpoint (self w)) auth tags enabled_only)
    = Responded r ->
  status_code r = 200 ->
  items_of r = Some v ->
  query_robots tags enabled_only w
    = (Return (Some v),
       record_request
         (devices_query_request (_admin_api_endpoint (self w)) auth tags enabled_only) w1,
       l).
Proof.
  intros Hauth Hpost Hstatus Hitems.
  unfold query_robots, formant_client_retry_on_failure.
  change (Z.to_nat NUM_RETRIES) with 5%nat. apply wrapper_loop_return.
  rewrite (query_robots_body_outcome _ _ _ _ _ _ _ Hauth Hpost).
  by rewrite Hstatus, Hitems.
Qed.

Lemma query_robots_returns_items_witness :
  @query_robots (sample_runtime (paging_backend [])) (JObj [("site", JArr [JStr "hq"])]) true
    logged_in_world
    = (Return (Some (JArr [JObj [("id", JStr "dev-1")]; JObj [("id", JStr "dev-2")]])),
       record_request
         {| url := "https://api.example/devices/query";
            headers := Some sample_headers;
            json_arg := JObj [("tags", JObj [("site", JArr [JStr "hq"])]);
                              ("enabled", JBool true)] |}
         logged_in_world,
       []).
Proof.
  refine (@query_robots_returns_items (sample_runtime (paging_backend [])) logged_in_world
            sample_headers logged_in_world [] _ true
            (items_response [JObj [("id", JStr "dev-1")]; JObj [("id", JStr "dev-2")]])
            _ _ _ _ _).
  - by vm_compute.
  - reflexivity.
  - reflexivity.
  - reflexivity.
Defined.

Section QueryOutage.
Context `{Runtime}.
Variables (w : World) (tags : json) (enabled_only : bool).
Hypothesis has_headers : authenticated w.

Local Abbreviation query :=
  (devices_query_request (_admin_api_endpoint (self w)) (_authenticated_headers (self w))
     tags enabled_only).

Hypothesis query_fails :
  forall hist, exists r,
    http_post hist query = Responded r
    /\ (status_code r <> 200 \/ items_of r = None).

(** [k] attempts in a row fail, each with one POST and no log entry. *)
Lemma query_robots_body_rejections k : forall w',
  self w' = self w ->
  exists trace,
    length trace = k /\ own_log trace = []
    /\ fails_with (query_robots_body tags enabled_only) trace w'
         (record_requests (replicate k query) w').
Proof.
  induction k as [| k IH]; intros w' Hself.
  - exists []. repeat split. cbn [replicate]. rewrite record_requests_nil. constructor.
  - assert (Hw' : authenticated w') by (unfold authenticated; by rewrite Hself).
    destruct (query_fails (sent w')) as (r & Hpost & Hbad).
    pose proof (get_authenticated_headers_cached w' Hw') as Hauth.
    rewrite Hself in Hauth.
    rewrite <- Hself in Hpost at 1.
    pose proof (query_robots_body_outcome _ _ _ _ _ _ _ Hauth Hpost) as Hbody.
    rewrite Hself in Hbody.
    destruct (IH (record_request query w') Hself) as (trace & Hlen & Hown & Hrest).
    rewrite record_requests_cons in Hrest.
    destruct (status_code r =? 200) eqn:Hstatus.
    + destruct Hbad as [Hbad | Hitems]; [by apply Z.eqb_eq in Hstatus |].
      rewrite Hitems in Hbody.
      eexists ((_, []) :: trace). split; [by cbn; rewrite Hlen |]. split; [done |].
      econstructor; [exact Hbody | done | exact Hrest].
    + eexists ((_, []) :: trace). split; [by cbn; rewrite Hlen |]. split; [done |].
      econstructor; [exact Hbody | done | exact Hrest].
Qed.
End QueryOutage.

(** X8: on a client that holds headers, when every query POST is answered
    with a status other than 200 or with a 200 whose body has no ["items"],
    [query_robots] sends the same query exactly [NUM_RETRIES = 5] times, logs
    five warnings and raises the exhaustion error; it never logs in again. *)
Theorem query_outage_costs_5_posts `{Runtime} w tags enabled_only :
  authenticated w ->
  (forall hist, exists r,
     http_post hist
       (devices_query_request (_admin_api_endpoint (self w)) (_authenticated_headers (self w))
          tags enabled_only) = Responded r
     /\ (status_code r <> 200 \/ items_of r = None)) ->
  exists log,
    query_robots tags enabled_only w
      = (Raise (FormantError (retries_exhausted NUM_RETRIES)),
         record_requests
           (replicate (Z.to_nat NUM_RETRIES)
              (devices_query_request (_admin_api_endpoint (self w))
                 (_authenticated_headers (self w)) tags enabled_only)) w,
         log)
    /\ length log = 5%nat.
Proof.
  intros Hw Hfails.
  destruct (query_robots_body_rejections w tags enabled_only Hw Hfails 5 w eq_refl)
    as (trace & Hlen & Hown & Hfail).
  exists (retry_log NUM_RETRIES 0 trace). split.
  - unfold query_robots.
    by rewrite (retry_exhausted_run NUM_RETRIES true _ trace _ _ Hlen Hfail).
  - by rewrite length_retry_log, Hlen, Hown.
Qed.

Lemma query_outage_costs_5_posts_witness :
  exists log,
    @query_robots (sample_runtime garbled_backend) (JObj []) false logged_in_world
      = (Raise (FormantError {| message := "Request failed after 5 retries";
                                retryable := true |}),
         record_requests
           (replicate 5 (devices_query_request sample_endpoint sample_headers (JObj []) false))
           logged_in_world,
         log)
    /\ length log = 5%nat.
Proof.
  refine (@query_outage_costs_5_posts (sample_runtime garbled_backend) logged_in_world
            (JObj []) false _ _).
  - vm_compute. lia.
  - intros hist. eexists. split; [reflexivity | by right].
Defined.

(** ** Fetching the task summaries *)

Section PageEdges.
Context `{Runtime}.
Variables (base deviceId : string).

Local Abbreviation events_url := (base +:+ "/events/query").

(** The loop keeps going for as long as it has fuel when every page has at
    least [page_size] items. *)
Lemma fetch_pages_endless fuel : forall page_offset acc w,
  authenticated w ->
  (forall hist page_offset', exists r p,
     http_post hist (page_request base (_authenticated_headers (self w)) deviceId page_offset')
       = Responded r
     /\ status_code r = 200 /\ items_of r = Some (JArr p)
     /\ page_size <= Z.of_nat (length p)) ->
  fetch_pages fuel events_url deviceId page_offset acc w
    = (OutOfFuel,
       record_requests
         (page_requests base (_authenticated_headers (self w)) deviceId page_offset fuel) w,
       []).
Proof.
  induction fuel as [| fuel IH]; intros page_offset acc w Hw Hfull.
  - cbn [fetch_pages page_requests]. by rewrite record_requests_nil.
  - destruct (Hfull (sent w) page_offset) as (r & p & Hpost & Hstatus & Hitems & Hp).
    rewrite (fetch_pages_page _ _ _ _ _ _ _ _ Hw Hpost Hstatus Hitems).
    apply Z.ltb_ge in Hp as ->.
    rewrite (IH _ _ (record_request _ w) Hw Hfull).
    cbn [page_requests self record_request]. by rewrite record_requests_cons.
Qed.

Lemma length_characters s : length (characters s) = String.length s.
Proof. induction s as [| c s IH]; [done | cbn; by rewrite IH]. Qed.

(** An iteration whose request is answered 200 with items that can be
    iterated, list or not. *)
Lemma fetch_pages_iterable fuel page_offset acc w r v elements :
  authenticated w ->
  http_post (sent w)
    (page_request base (_authenticated_headers (self w)) deviceId page_offset)
    = Responded r ->
  status_code r = 200 ->
  items_of r = Some v ->
  elements_of v = Some elements ->
  fetch_pages (S fuel) events_url deviceId page_offset acc w
    = if Z.of_nat (length elements) <? page_size
      then (Return (acc ++ elements),
            record_request
              (page_request base (_authenticated_headers (self w)) deviceId page_offset) w,
            [])
      else fetch_pages fuel events_url deviceId (page_offset + page_size) (acc ++ elements)
             (record_request
                (page_request base (_authenticated_headers (self w)) deviceId page_offset)
                w).
Proof.
  intros Hw Hpost Hstatus Hitems Helements.
  cbn [fetch_pages]. cbv zeta. unfold bind at 1.
  rewrite (get_authenticated_headers_cached w Hw).
  unfold bind at 1, requests_post.
  fold (page_request base (_authenticated_headers (self w)) deviceId page_offset).
  rewrite Hpost, Hstatus. cbn [Z.eqb Pos.eqb negb].
  unfold items_of in Hitems. unfold Response_json.
  destruct (json_body r) as [[| | | | | | entries] |]; try discriminate.
  step. cbn [getitem]. rewrite Hitems. step.
  destruct v as [| | | | s | es | es]; try discriminate;
    injection Helements as <-; cbn [iterate len]; step;
    rewrite ?length_characters, ?length_map;
    (destruct (_ <? page_size); [done |]);
    by destruct (fetch_pages fuel _ _ _ _ _) as [[o w2] l2].
Qed.

(** An iteration whose request is answered 200 with a body that makes the
    fetch crash. *)
Lemma fetch_pages_crash fuel page_offset acc w r e :
  authenticated w ->
  http_post (sent w)
    (page_request base (_authenticated_headers (self w)) deviceId page_offset)
    = Responded r ->
  status_code r = 200 ->
  page_crash r = Some e ->
  fetch_pages (S fuel) events_url deviceId page_offset acc w
    = (Raise (Builtin e),
       record_request
         (page_request base (_authenticated_headers (self w)) deviceId page_offset) w,
       []).
Proof.
  intros Hw Hpost Hstatus Hcrash.
  cbn [fetch_pages]. cbv zeta. unfold bind at 1.
  rewrite (get_authenticated_headers_cached w Hw).
  unfold bind at 1, requests_post.
  fold (page_request base (_authenticated_headers (self w)) deviceId page_offset).
  rewrite Hpost, Hstatus. cbn [Z.eqb Pos.eqb negb].
  unfold page_crash, items_of, items_failure in Hcrash. unfold Response_json.
  destruct (json_body r) as [[| | | | | | entries] |];
    try (by injection Hcrash as <-).
  step. cbn [getitem].
  destruct (assoc "items" entries) as [[| | | | | |] |];
    try discriminate; by injection Hcrash as <-.
Qed.
End PageEdges.

(** X9: the fetch has no bound of its own on the number of pages.  On a
    client that holds headers, when the backend answers every page request
    with 200 and at least 100 items, the loop is still running after any
    number of iterations: with fuel for [n] iterations it has sent [n] page
    requests, at offsets 0, 100, ..., and returned nothing. *)
Theorem fetch_never_ends_on_full_pages `{Runtime} deviceId w :
  authenticated w ->
  (forall hist page_offset, exists r p,
     http_post hist
       (page_request (_admin_api_endpoint (self w)) (_authenticated_headers (self w))
          deviceId page_offset) = Responded r
     /\ status_code r = 200 /\ items_of r = Some (JArr p)
     /\ page_size <= Z.of_nat (length p)) ->
  forall fuel,
    get_task_list_for_device_sync fuel deviceId w
      = (OutOfFuel,
         record_requests
           (page_requests (_admin_api_endpoint (self w)) (_authenticated_headers (self w))
              deviceId 0 fuel) w,
         []).
Proof.
  intros Hw Hfull fuel.
  unfold get_task_list_for_device_sync, formant_client_retry_on_failure.
  change (Z.to_nat NUM_RETRIES) with 5%nat. apply wrapper_loop_out_of_fuel.
  unfold get_task_list_for_device_sync_body, _get_get_admin_endpoint.
  unfold bind at 1, gets at 1.
  by rewrite (fetch_pages_endless _ _ fuel 0 [] w Hw Hfull).
Qed.

Lemma fetch_never_ends_on_full_pages_witness :
  @get_task_list_for_device_sync (sample_runtime endless_backend) 7 "dev-1" logged_in_world
    = (OutOfFuel,
       record_requests (page_requests sample_endpoint sample_headers "dev-1" 0 7)
         logged_in_world,
       []).
Proof.
  refine (@fetch_never_ends_on_full_pages (sample_runtime endless_backend) "dev-1"
            logged_in_world _ _ 7%nat).
  - vm_compute. lia.
  - intros hist page_offset. eexists _, _.
    split; [reflexivity |]. split; [reflexivity |]. split; [reflexivity | by vm_compute].
Defined.

Section TaskListEdges.
Context `{Runtime}.
Variables (deviceId : string) (w w1 : World) (auth : gmap string string) (l : list string).
Hypothesis headers_obtained : _get_authenticated_headers w = (Return auth, w1, l).

Local Abbreviation base := (_admin_api_endpoint (self w)).

(** Pages of at least [page_size] items followed by a 200 that makes the
    fetch crash. *)
Lemma get_task_list_crash fuel full r e :
  Forall (fun p => page_size <= Z.of_nat (length p)) full ->
  serves (sent w1) base auth deviceId 0 full ->
  http_post (sent w1 ++ page_requests base auth deviceId 0 (length full))
    (page_request base auth deviceId (page_size * Z.of_nat (length full))) = Responded r ->
  status_code r = 200 ->
  page_crash r = Some e ->
  (length full < fuel)%nat ->
  get_task_list_for_device_sync fuel deviceId w
    = (Raise (Builtin e),
       record_requests (page_requests base auth deviceId 0 (S (length full))) w1,
       l).
Proof.
  intros Hfull Hserves Hpost Hstatus Hcrash Hfuel.
  destruct (get_authenticated_headers_returns _ _ _ _ headers_obtained) as [Hw1 Hauth].
  unfold get_task_list_for_device_sync, formant_client_retry_on_failure.
  change (Z.to_nat NUM_RETRIES) with 5%nat.
  apply wrapper_loop_uncaught.
  replace fuel with (length full + S (fuel - length full - 1))%nat by lia.
  rewrite (get_task_list_body_full _ _ _ _ _ headers_obtained _ _ Hfull Hserves).
  rewrite Hauth in Hpost |- *.
  erewrite fetch_pages_crash; [| done | exact Hpost | done | done].
  rewrite page_requests_snoc, Z.add_0_l, record_requests_cons_r. by rewrite app_nil_r.
Qed.

(** A first page whose items can be iterated and number fewer than
    [page_size]. *)
Lemma get_task_list_single_page fuel r v elements :
  http_post (sent w1) (page_request base auth deviceId 0) = Responded r ->
  status_code r = 200 ->
  items_of r = Some v ->
  elements_of v = Some elements ->
  Z.of_nat (length elements) < page_size ->
  get_task_list_for_device_sync (S fuel) deviceId w
    = (Return (Some elements), record_request (page_request base auth deviceId 0) w1, l).
Proof.
  intros Hpost Hstatus Hitems Helements Hshort.
  destruct (get_authenticated_headers_returns _ _ _ _ headers_obtained) as [Hw1 Hauth].
  unfold get_task_list_for_device_sync, formant_client_retry_on_failure.
  change (Z.to_nat NUM_RETRIES) with 5%nat.
  apply wrapper_loop_return.
  change (S fuel) with (length (@nil (list json)) + S fuel)%nat.
  rewrite (get_task_list_body_full _ _ _ _ _ headers_obtained fuel []
             (Forall_nil_2 _) I).
  cbn [length page_requests concat]. rewrite record_requests_nil, Z.mul_0_r.
  rewrite Hauth in Hpost |- *.
  erewrite fetch_pages_iterable; [| done | exact Hpost | done | done | done].
  apply Z.ltb_lt in Hshort as ->. by rewrite app_nil_r.
Qed.
End TaskListEdges.

(** X10: a page answered 200 whose body does not decode, has no ["items"]
    entry, or has items that cannot be iterated (null, a boolean, a number)
    makes the fetch crash with [JSONDecodeError], [KeyError] or [TypeError].
    Unlike [query_robots], the fetch does not turn these into a
    [FormantClientRequestError], so the decorator does not retry: the
    exception leaves after that request, and the items of the earlier pages
    are lost. *)
Theorem page_crash_is_not_retried `{Runtime} fuel deviceId w auth w1 l full r e :
  _get_authenticated_headers w = (Return auth, w1, l) ->
  Forall (fun p => page_size <= Z.of_nat (length p)) full ->
  serves (sent w1) (_admin_api_endpoint (self w)) auth deviceId 0 full ->
  http_post
    (sent w1 ++ page_requests (_admin_api_endpoint (self w)) auth deviceId 0 (length full))
    (page_request (_admin_api_endpoint (self w)) auth deviceId
       (page_size * Z.of_nat (length full)))
    = Responded r ->
  status_code r = 200 ->
  page_crash r = Some e ->
  (length full < fuel)%nat ->
  get_task_list_for_device_sync fuel deviceId w
    = (Raise (Builtin e),
       record_requests
         (page_requests (_admin_api_endpoint (self w)) auth deviceId 0 (S (length full))) w1,
       l).
Proof. intros. by apply get_task_list_crash with (r := r). Qed.

Lemma page_crash_is_not_retried_witness :
  @get_task_list_for_device_sync (sample_runtime garbled_backend) 10 "dev-1" logged_in_world
    = (Raise (Builtin JSONDecodeError),
       record_request (page_request sample_endpoint sample_headers "dev-1" 0) logged_in_world,
       []).
Proof.
  refine (@page_crash_is_not_retried (sample_runtime garbled_backend) 10 "dev-1"
            logged_in_world sample_headers logged_in_world [] []
            {| status_code := 200; text := "<html>"; json_body := None |}
            JSONDecodeError _ _ _ _ _ _ _).
  - by vm_compute.
  - constructor.
  - exact I.
  - reflexivity.
  - reflexivity.
  - reflexivity.
  - cbn. lia.
Defined.

(** X11: the fetch does not check that ["items"] is a list.  A first page
    whose items are a string or an object of fewer than 100 elements is
    accepted: the fetch returns the characters of the string, or the keys of
    the object, as if they were task summaries. *)
Theorem fetch_accepts_any_iterable `{Runtime} fuel deviceId w auth w1 l r v elements :
  _get_authenticated_headers w = (Return auth, w1, l) ->
  http_post (sent w1) (page_request (_admin_api_endpoint (self w)) auth deviceId 0)
    = Responded r ->
  status_code r = 200 ->
  items_of r = Some v ->
  elements_of v = Some elements ->
  Z.of_nat (length elements) < page_size ->
  get_task_list_for_device_sync (S fuel) deviceId w
    = (Return (Some elements),
       record_request (page_request (_admin_api_endpoint (self w)) auth deviceId 0) w1,
       l).
Proof. intros. by apply get_task_list_single_page with (r := r) (v := v). Qed.

Lemma fetch_accepts_any_iterable_witness :
  @get_task_list_for_device_sync (sample_runtime stringly_backend) 1 "dev-1" logged_in_world
    = (Return (Some [JStr "n"; JStr "o"; JStr "n"; JStr "e"]),
       record_request (page_request sample_endpoint sample_headers "dev-1" 0) logged_in_world,
       []).
Proof.
  refine (@fetch_accepts_any_iterable (sample_runtime stringly_backend) 0 "dev-1"
            logged_in_world sample_headers logged_in_world []
            {| status_code := 200; text := "{...}";
               json_body := Some (JObj [("items", JStr "none")]) |}
            (JStr "none") _ _ _ _ _ _ _).
  - by vm_compute.
  - reflexivity.
  - reflexivity.
  - reflexivity.
  - reflexivity.
  - by vm_compute.
Defined.

(** Obtaining the headers on an empty cache with a login that succeeds at
    once. *)
Lemma get_authenticated_headers_login `{Runtime} w r token :
  _authenticated_headers (self w) = ∅ ->
  http_post (sent w) (login_request w) = Responded r ->
  status_code r = 200 ->
  access_token r = Some token ->
  _get_authenticated_headers w
    = (Return (bearer_headers token),
       set_authenticated_headers (bearer_headers token) (record_request (login_request w) w),
       []).
Proof.
  intros Hempty Hpost Hstatus Htoken.
  unfold _get_authenticated_headers, bind, _authenticate, formant_client_retry_on_failure.
  change (Z.to_nat NUM_RETRIES) with 5%nat.
  by rewrite (wrapper_loop_return _ _ _ _ _ _ _ _ _
                (authenticate_body_login w r token Hempty Hpost Hstatus Htoken)).
Qed.

(** X12: a fetch on a client with no cached headers logs in once, before the
    first page, and not again: with a login answered 200 with a token and
    pages served as in C1, the requests sent are the login POST followed by
    one request per page, each carrying the Bearer headers, and the headers
    stay cached. *)
Theorem fetch_logs_in_once `{Runtime} fuel deviceId w r token full last :
  _authenticated_headers (self w) = ∅ ->
  http_post (sent w) (login_request w) = Responded r ->
  status_code r = 200 ->
  access_token r = Some token ->
  Forall (fun p => page_size <= Z.of_nat (length p)) full ->
  Z.of_nat (length last) < page_size ->
  serves (sent w ++ [login_request w]) (_admin_api_endpoint (self w)) (bearer_headers token)
    deviceId 0 (full ++ [last]) ->
  (length full < fuel)%nat ->
  get_task_list_for_device_sync fuel deviceId w
    = (Return (Some (concat (full ++ [last]))),
       set_authenticated_headers (bearer_headers token)
         (record_requests
            (login_request w
             :: page_requests (_admin_api_endpoint (self w)) (bearer_headers token) deviceId 0
                  (length (full ++ [last]))) w),
       []).
Proof.
  intros Hempty Hpost Hstatus Htoken Hfull Hlast Hserves Hfuel.
  pose proof (get_authenticated_headers_login w r token Hempty Hpost Hstatus Htoken) as Hauth.
  rewrite (get_task_list_run deviceId w _ _ _ Hauth fuel full last Hfull Hlast Hserves Hfuel).
  unfold set_authenticated_headers, record_requests, record_request. cbn.
  by rewrite <- app_assoc.
Qed.

Lemma fetch_logs_in_once_witness :
  let request := page_request sample_endpoint sample_headers "dev-1" in
  @get_task_list_for_device_sync (sample_runtime (paging_backend (numbered_events 120))) 5
    "dev-1" fresh_world
    = (Return (Some (numbered_events 120)),
       {| self := self logged_in_world;
          sent := [login_request fresh_world; request 0; request 100] |},
       []).
Proof.
  intros request.
  refine (@fetch_logs_in_once (sample_runtime (paging_backend (numbered_events 120))) 5
            "dev-1" fresh_world sample_login_response (JStr "t0k3n")
            [take 100 (numbered_events 120)] (drop 100 (numbered_events 120))
            _ _ _ _ _ _ _ _).
  - reflexivity.
  - reflexivity.
  - reflexivity.
  - reflexivity.
  - repeat constructor; by vm_compute.
  - by vm_compute.
  - repeat split; eexists; (split; [by vm_compute | split; reflexivity]).
  - cbn. lia.
Defined.

(** ** Invariants of the client under every method *)

Section MethodInvariant.
Context `{Runtime}.
Variable I : World -> Prop.
Hypothesis I_login : forall w, I w -> I (record_request (login_request w) w).
Hypothesis I_authorized : forall w u j,
  I w -> authenticated w ->
  I (record_request {| url := u; headers := Some (_authenticated_headers (self w));
                       json_arg := j |} w).
Hypothesis I_token : forall w token,
  I w -> I (set_authenticated_headers (bearer_headers token) w).

Lemma invariant_Response_json r : preserves I (Response_json r).
Proof. unfold Response_json. repeat preserves_step. Qed.

Lemma invariant_Response_status r : preserves I (Response_status r).
Proof. unfold Response_status. repeat preserves_step. Qed.

Lemma invariant_getitem v key : preserves I (getitem v key).
Proof. unfold getitem. repeat preserves_step. Qed.

Lemma invariant_iterate v : preserves I (iterate v).
Proof. unfold iterate. repeat preserves_step. Qed.

Lemma invariant_len v : preserves I (len v).
Proof. unfold len. repeat preserves_step. Qed.

#[local] Hint Resolve invariant_Response_json invariant_Response_status invariant_getitem
  invariant_iterate invariant_len : preserves.

Lemma invariant_authenticate_body : preserves I _authenticate_body.
Proof.
  intros w Hw.
  unfold _authenticate_body, _get_get_admin_endpoint, requests_post. step.
  destruct (0 <? size _)%nat; [done |]. fold (login_request w).
  pose proof (I_login w Hw) as Hsent.
  destruct (http_post _ _) as [r |]; [| done].
  destruct (status_code r =? 200); [| done].
  unfold Response_json.
  destruct (json_body r) as [decoded |]; [| done]. step.
  destruct decoded as [| | | | | | entries]; try done. cbn [getitem].
  destruct (assoc "authentication" entries) as [inner |]; [| done]. step.
  destruct inner as [| | | | | | inner]; try done. cbn [getitem].
  destruct (assoc "accessToken" inner) as [token |]; [| done]. step.
  cbn [fst snd]. by apply (I_token _ token).
Qed.

Lemma invariant_get_authenticated_headers : preserves I _get_authenticated_headers.
Proof.
  unfold _get_authenticated_headers.
  apply preserves_bind; [| intros ?; apply preserves_gets].
  apply preserves_wrapper_loop, invariant_authenticate_body.
Qed.

(** Obtaining the headers and posting with them. *)
Lemma invariant_authorized_post {A} u j (k : Response -> M World A) :
  (forall r, preserves I (k r)) ->
  preserves I (auth <- _get_authenticated_headers ;;
               response <- requests_post u (Some auth) j ;;
               k response).
Proof.
  intros Hk w Hw. unfold bind at 1.
  pose proof (invariant_get_authenticated_headers w Hw) as Hw1.
  destruct (_get_authenticated_headers w) as [[[auth | e |] w1] l1] eqn:Hauth; try done.
  cbn [fst snd] in Hw1.
  destruct (get_authenticated_headers_returns _ _ _ _ Hauth) as [Hheld ->].
  pose proof (I_authorized w1 u j Hw1 Hheld) as Hsent.
  unfold bind at 1, requests_post.
  destruct (http_post _ _) as [r |]; [| done].
  specialize (Hk r _ Hsent).
  by destruct (k r _) as [[o w2] l2].
Qed.

Lemma invariant_query_robots_body tags enabled_only :
  preserves I (query_robots_body tags enabled_only).
Proof.
  unfold query_robots_body, _get_get_admin_endpoint. cbv zeta.
  apply preserves_bind; [apply preserves_gets | intros endpoint].
  apply invariant_authorized_post. intros r. repeat preserves_step.
Qed.

Lemma invariant_fetch_pages fuel endpoint deviceId : forall page_offset task_summaries,
  preserves I (fetch_pages fuel endpoint deviceId page_offset task_summaries).
Proof.
  induction fuel as [| fuel IH]; intros page_offset task_summaries;
    cbn [fetch_pages]; [apply preserves_out_of_fuel |].
  cbv zeta. apply invariant_authorized_post. intros r. repeat preserves_step.
Qed.

Lemma invariant_call m : preserves I (call m).
Proof.
  destruct m; cbn [call]; (apply preserves_bind; [| intros ?; apply preserves_ret]).
  - apply preserves_gets.
  - apply preserves_wrapper_loop, invariant_authenticate_body.
  - apply invariant_get_authenticated_headers.
  - apply preserves_wrapper_loop, invariant_query_robots_body.
  - apply preserves_wrapper_loop. unfold get_task_list_for_device_sync_body.
    apply preserves_bind; [apply preserves_gets | intros ?; apply invariant_fetch_pages].
Qed.

Lemma invariant_run_calls ms : forall w, I w -> I (run_calls ms w).
Proof.
  induction ms as [| m ms IH]; intros w Hw; [done |].
  cbn [run_calls]. by apply IH, invariant_call.
Qed.
End MethodInvariant.

(** X13: no method of the client changes the endpoint, the e-mail address
    or the password that the constructor stored: after any sequence of
    calls, returning or raising, whatever the backend answers, they are what
    they were. *)
Theorem account_is_never_changed `{Runtime} ms w :
  _admin_api_endpoint (self (run_calls ms w)) = _admin_api_endpoint (self w)
  /\ _email (self (run_calls ms w)) = _email (self w)
  /\ _password (self (run_calls ms w)) = _password (self w).
Proof.
  apply (invariant_run_calls (same_account (self w))); [done .. |].
  by unfold same_account.
Qed.

Lemma bearer_headers_has_bearer `{Runtime} token : has_bearer (bearer_headers token).
Proof. eexists. unfold bearer_headers. apply lookup_insert_eq. Qed.

(** X14: starting from a newly constructed client, whatever methods are
    called and whatever the backend answers, every request that the client
    sends is either a login POST to [<endpoint>/auth/login], sent without
    headers, or carries an [authorization] header holding a Bearer token: no
    query leaves before a login has succeeded. *)
Theorem requests_are_logins_or_authorized `{Runtime} ms base email password :
  Forall (login_or_authorized base)
    (sent (run_calls ms {| self := FormantClient_init base email password; sent := [] |})).
Proof.
  apply (invariant_run_calls (disciplined base)).
  - intros w (Hbase & Hcache & Hsent). repeat split; [done | done |].
    apply Forall_app. split; [done |]. constructor; [| done].
    unfold login_or_authorized, login_request. cbn. by rewrite Hbase.
  - intros w u j (Hbase & Hcache & Hsent) Hheld. repeat split; [done | done |].
    apply Forall_app. split; [done |]. constructor; [| done].
    unfold login_or_authorized. cbn.
    destruct Hcache as [Hempty | Hbearer]; [| done].
    unfold authenticated in Hheld. rewrite Hempty, map_size_empty in Hheld. lia.
  - intros w token (Hbase & Hcache & Hsent). repeat split; [done | | done].
    right. apply bearer_headers_has_bearer.
  - repeat split; [by left | constructor].
Qed.

(** * Properties of [process_task_reports] *)


(** [getitem] raises what [subscript] says. *)
Lemma getitem_subscript {St} v key (s : St) :
  getitem v key s
    = (match subscript v key with
       | inr x => Return x
       | inl e => Raise (Builtin e)
       end, s, []).
Proof.
  unfold getitem, subscript.
  destruct v as [| | | | | | entries]; try done. by destruct (assoc key entries).
Qed.




(** * Properties of [main] *)

(** Whatever it is given, [process_task_reports] raises, having printed
    either nothing or the two counters at zero. *)
Lemma process_task_reports_cases percentage task_reports :
  exists printed e,
    process_task_reports percentage task_reports = (printed, Some e)
    /\ (printed = [] \/ printed = ["Redundancy: 0"; "Total: 0"]).
Proof.
  unfold process_task_reports.
  destruct (coordinates "robotCleaningSquareX" task_reports); [eauto 6 |].
  destruct (coordinates "robotCleaningSquareY" task_reports); [eauto 6 |].
  destruct task_reports; cbn; eauto 6.
Qed.

(** X16: [main] never finishes normally, whatever the backend answers and
    whatever the constants of [env]: every run ends in an exception (or is
    still fetching pages when the fuel runs out), and the only lines it can
    print are the two counters at zero; the percentage is never printed. *)
Theorem main_never_finishes `{Runtime} API_ENDPOINT FORMANT_EMAIL FORMANT_PASSWORD
    percentage fuel :
  let run := main API_ENDPOINT FORMANT_EMAIL FORMANT_PASSWORD percentage fuel in
  run.1.1.1 <> Finished
  /\ (run.2 = [] \/ run.2 = ["Redundancy: 0"; "Total: 0"]).
Proof.
  unfold main.
  destruct (download fuel _) as [[[all_task_reports | e |] w] log]; cbn.
  - destruct (process_task_reports_cases percentage all_task_reports)
      as (printed & e & -> & Hprinted).
    by cbn.
  - split; [done | by left].
  - split; [done | by left].
Qed.

Section MainFacts.
Context `{Runtime}.
Variables (API_ENDPOINT FORMANT_EMAIL FORMANT_PASSWORD : string).
Variable percentage : Z -> Z -> string.
Variables (login_response query_response : Response) (token items : json).
Variable robots : list json.

Local Abbreviation start :=
  {| self := FormantClient_init API_ENDPOINT FORMANT_EMAIL FORMANT_PASSWORD; sent := [] |}.
Local Abbreviation query :=
  (devices_query_request API_ENDPOINT (bearer_headers token) (JObj []) false).
Local Abbreviation queried :=
  (set_authenticated_headers (bearer_headers token)
     (record_requests [login_request start; query] start)).

Hypothesis login_answer : http_post [] (login_request start) = Responded login_response.
Hypothesis login_ok : status_code login_response = 200.
Hypothesis login_token : access_token login_response = Some token.
Hypothesis query_answer : http_post [login_request start] query = Responded query_response.
Hypothesis query_ok : status_code query_response = 200.
Hypothesis query_items : items_of query_response = Some items.
Hypothesis items_elements : elements_of items = Some robots.

Lemma iterate_elements {St} v elements (s : St) :
  elements_of v = Some elements -> iterate v s = (Return elements, s, []).
Proof. destruct v; try done; by intros [= <-]. Qed.

(** [main] logs in, lists the devices and goes on with their records. *)
Lemma download_after_query fuel :
  download fuel start
    = (robot_ids <- robot_ids_of robots ;; download_task_reports fuel robot_ids []) queried.
Proof.
  pose proof (get_authenticated_headers_login start login_response token
                eq_refl login_answer login_ok login_token) as Hauth.
  pose proof (query_robots_body_outcome start _ _ _ (JObj []) false query_response
                Hauth query_answer) as Hbody.
  rewrite query_ok, query_items in Hbody. cbn [Z.eqb Pos.eqb] in Hbody.
  unfold download, query_robots, formant_client_retry_on_failure.
  change (Z.to_nat NUM_RETRIES) with 5%nat.
  unfold bind at 1. rewrite (wrapper_loop_return _ _ _ _ _ _ _ _ _ Hbody).
  unfold bind at 1. cbn [iterate_result]. rewrite (iterate_elements _ _ _ items_elements).
  by destruct (bind (robot_ids_of robots) _ _) as [[o w'] l'].
Qed.

(** The comprehension stops at the first record without an id. *)
Lemma robot_ids_of_fails good bad rest e (w : World) :
  Forall (fun robot => exists id, subscript robot "id" = inr id) good ->
  subscript bad "id" = inl e ->
  robot_ids_of (good ++ bad :: rest) w = (Raise (Builtin e), w, []).
Proof.
  intros Hgood Hbad. induction Hgood as [| robot good [id Hid] _ IH].
  - cbn [app robot_ids_of]. unfold bind. by rewrite getitem_subscript, Hbad.
  - cbn [app robot_ids_of]. unfold bind at 1. rewrite getitem_subscript, Hid.
    unfold bind at 1. by rewrite IH.
Qed.
End MainFacts.

(** X17: with an empty fleet [main] ends in a division by zero.  When the
    login succeeds and the device query is answered 200 with no item, [main]
    sends the login and the query and nothing else, prints both counters at
    zero and raises [ZeroDivisionError] instead of printing a percentage. *)
Theorem main_on_empty_fleet `{Runtime} API_ENDPOINT FORMANT_EMAIL FORMANT_PASSWORD
    percentage fuel login_response query_response token items :
  let start :=
    {| self := FormantClient_init API_ENDPOINT FORMANT_EMAIL FORMANT_PASSWORD; sent := [] |} in
  let query := devices_query_request API_ENDPOINT (bearer_headers token) (JObj []) false in
  http_post [] (login_request start) = Responded login_response ->
  status_code login_response = 200 ->
  access_token login_response = Some token ->
  http_post [login_request start] query = Responded query_response ->
  status_code query_response = 200 ->
  items_of query_response = Some items ->
  elements_of items = Some [] ->
  main API_ENDPOINT FORMANT_EMAIL FORMANT_PASSWORD percentage fuel
    = (RaisedInReports ZeroDivisionError,
       set_authenticated_headers (bearer_headers token)
         (record_requests [login_request start; query] start),
       [], ["Redundancy: 0"; "Total: 0"]).
Proof.
  intros start query Hlogin Hok Htoken Hquery Hqok Hitems Hempty.
  unfold main.
  by rewrite (download_after_query _ _ _ _ _ _ _ [] Hlogin Hok Htoken Hquery Hqok Hitems
                Hempty fuel).
Qed.

Lemma main_on_empty_fleet_witness :
  (@main (sample_runtime empty_fleet_backend) sample_endpoint "ops@example.com" "secret"
     (fun _ _ => "0.0") 3).1.1.1
    = RaisedInReports ZeroDivisionError.
Proof.
  by rewrite (@main_on_empty_fleet (sample_runtime empty_fleet_backend) sample_endpoint
                "ops@example.com" "secret" (fun _ _ => "0.0") 3 sample_login_response
                (items_response []) (JStr "t0k3n") (JArr [])
                eq_refl eq_refl eq_refl eq_refl eq_refl eq_refl eq_refl).
Defined.

(** X18: [main] reads the id of every device before it fetches anything.
    When the login succeeds and the device query answers with records of
    which one has no ["id"] (or is not an object), [main] raises that
    [KeyError] or [TypeError] right after the query: no event request is
    sent, even for the devices listed before the faulty one, and nothing is
    printed. *)
Theorem main_needs_every_id `{Runtime} API_ENDPOINT FORMANT_EMAIL FORMANT_PASSWORD
    percentage fuel login_response query_response token items good bad rest e :
  let start :=
    {| self := FormantClient_init API_ENDPOINT FORMANT_EMAIL FORMANT_PASSWORD; sent := [] |} in
  let query := devices_query_request API_ENDPOINT (bearer_headers token) (JObj []) false in
  http_post [] (login_request start) = Responded login_response ->
  status_code login_response = 200 ->
  access_token login_response = Some token ->
  http_post [login_request start] query = Responded query_response ->
  status_code query_response = 200 ->
  items_of query_response = Some items ->
  elements_of items = Some (good ++ bad :: rest) ->
  Forall (fun robot => exists id, subscript robot "id" = inr id) good ->
  subscript bad "id" = inl e ->
  main API_ENDPOINT FORMANT_EMAIL FORMANT_PASSWORD percentage fuel
    = (Raised (Builtin e),
       set_authenticated_headers (bearer_headers token)
         (record_requests [login_request start; query] start),
       [], []).
Proof.
  intros start query Hlogin Hok Htoken Hquery Hqok Hitems Helements Hgood Hbad.
  unfold main.
  rewrite (download_after_query _ _ _ _ _ _ _ _ Hlogin Hok Htoken Hquery Hqok Hitems
             Helements fuel).
  unfold bind at 1. by rewrite (robot_ids_of_fails good bad rest e _ Hgood Hbad).
Qed.

Lemma main_needs_every_id_witness :
  (@main (sample_runtime nameless_device_backend) sample_endpoint "ops@example.com" "secret"
     (fun _ _ => "0.0") 3).1.1.1
    = Raised (Builtin (KeyError "id")).
Proof.
  assert (Hgood : Forall (fun robot => exists id, subscript robot "id" = inr id)
                    [JObj [("id", JStr "dev-1")]])
    by (repeat constructor; by eexists).
  by rewrite (@main_needs_every_id (sample_runtime nameless_device_backend) sample_endpoint
                "ops@example.com" "secret" (fun _ _ => "0.0") 3 sample_login_response
                (items_response [JObj [("id", JStr "dev-1")]; JObj [("name", JStr "dev-2")]])
                (JStr "t0k3n") _ [JObj [("id", JStr "dev-1")]] (JObj [("name", JStr "dev-2")])
                [] (KeyError "id")
                eq_refl eq_refl eq_refl eq_refl eq_refl eq_refl eq_refl Hgood eq_refl).
Defined.

(** ** A whole run *)

Lemma bind_ext {St A B} (m : M St A) (k1 k2 : A -> M St B) s :
  (forall a s', k1 a s' = k2 a s') -> bind m k1 s = bind m k2 s.
Proof.
  intros Hk. unfold bind. destruct (m s) as [[[a | e |] s1] l1]; [| done | done].
  by rewrite Hk.
Qed.

Lemma wrapper_loop_ext {St A} max_retries propegrate_error (f1 f2 : M St A) :
  (forall s, f1 s = f2 s) ->
  forall remaining i s,
    wrapper_loop max_retries propegrate_error f1 remaining i s
      = wrapper_loop max_retries propegrate_error f2 remaining i s.
Proof.
  intros Hext. induction remaining as [| remaining IH]; intros i s; [done |].
  pose proof (Hext s) as H1.
  destruct (f2 s) as [[[a | [e | e] |] s1] l1] eqn:H2.
  - by rewrite (wrapper_loop_return _ _ _ _ _ _ _ _ _ H1),
         (wrapper_loop_return _ _ _ _ _ _ _ _ _ H2).
  - by rewrite (wrapper_loop_uncaught _ _ _ _ _ _ _ _ _ H1),
         (wrapper_loop_uncaught _ _ _ _ _ _ _ _ _ H2).
  - destruct (retryable e) eqn:He.
    + by rewrite (wrapper_loop_retry _ _ _ _ _ _ _ _ _ H1 He),
           (wrapper_loop_retry _ _ _ _ _ _ _ _ _ H2 He), IH.
    + by rewrite (wrapper_loop_fatal _ _ _ _ _ _ _ _ _ H1 He),
           (wrapper_loop_fatal _ _ _ _ _ _ _ _ _ H2 He).
  - by rewrite (wrapper_loop_out_of_fuel _ _ _ _ _ _ _ _ H1),
         (wrapper_loop_out_of_fuel _ _ _ _ _ _ _ _ H2).
Qed.

Section Fleet.
Context `{Runtime}.

(** For an id that is a string, the fetch that [main] runs is
    [get_task_list_for_device_sync]. *)
Lemma fetch_pages_for_JStr fuel endpoint deviceId : forall page_offset acc w,
  fetch_pages_for fuel endpoint (JStr deviceId) page_offset acc w
    = fetch_pages fuel endpoint deviceId page_offset acc w.
Proof.
  induction fuel as [| fuel IH]; intros page_offset acc w; [done |].
  cbn [fetch_pages_for fetch_pages]. cbv zeta.
  change (events_params_for (JStr deviceId) page_offset)
    with (events_params deviceId page_offset).
  apply bind_ext. intros auth w1. apply bind_ext. intros response w2.
  destruct (negb (status_code response =? 200)); [done |].
  do 6 (apply bind_ext; intros ? ?).
  by destruct (_ <? page_size).
Qed.

Lemma get_task_list_for_JStr fuel deviceId w :
  get_task_list_for fuel (JStr deviceId) w = get_task_list_for_device_sync fuel deviceId w.
Proof.
  unfold get_task_list_for, get_task_list_for_device_sync, formant_client_retry_on_failure.
  apply wrapper_loop_ext. intros s. unfold get_task_list_for_device_sync_body.
  apply bind_ext. intros endpoint s'. apply fetch_pages_for_JStr.
Qed.

(** The comprehension on records that all have a string id. *)
Lemma robot_ids_of_fleet robots (fleet : list (string * list (list json))) (w : World) :
  Forall2 (fun robot device => subscript robot "id" = inr (JStr device.1)) robots fleet ->
  robot_ids_of robots w = (Return (map (fun device => JStr device.1) fleet), w, []).
Proof.
  induction 1 as [| robot device robots fleet Hid _ IH]; [done |].
  cbn [robot_ids_of map]. unfold bind at 1. rewrite getitem_subscript, Hid.
  unfold bind at 1. by rewrite IH.
Qed.

(** The loop of [main] over a fleet that the backend serves. *)
Lemma download_fleet fuel fleet : forall acc w,
  authenticated w ->
  fleet_served (sent w) (_admin_api_endpoint (self w)) (_authenticated_headers (self w))
    fleet ->
  Forall (fun device => (length device.2 <= fuel)%nat) fleet ->
  download_task_reports fuel (map (fun device => JStr device.1) fleet) acc w
    = (Return (acc ++ fleet_reports fleet),
       record_requests
         (fleet_requests (_admin_api_endpoint (self w)) (_authenticated_headers (self w))
            fleet) w,
       []).
Proof.
  induction fleet as [| [deviceId pages] fleet IH]; intros acc w Hw Hserved Hfuel.
  - cbn. by rewrite record_requests_nil, app_nil_r.
  - destruct Hserved as ((full & last & -> & Hfull & Hlast) & Hserves & Hrest).
    apply Forall_cons in Hfuel as [Hpages Hfuel].
    cbn [snd] in Hpages. rewrite length_app in Hpages. cbn [length] in Hpages.
    cbn [map download_task_reports fst]. unfold bind at 1.
    rewrite get_task_list_for_JStr.
    rewrite (get_task_list_run deviceId w w _ [] (get_authenticated_headers_cached w Hw)
               fuel full last Hfull Hlast Hserves ltac:(lia)).
    rewrite (IH _ (record_requests _ w) Hw Hrest Hfuel).
    cbn [self record_requests fleet_requests snd].
    rewrite record_requests_app. unfold fleet_reports. cbn [map concat snd].
    by rewrite app_assoc.
Qed.
End Fleet.

(** X19: a whole run of [main].  When the login succeeds, the device query
    lists records with string ids, and the backend serves the pages of each
    device in turn (as in C1), [main] sends the login, the query and then one
    request per page, device after device, and hands the reports of all
    devices, in device order and page order, to [process_task_reports]: the
    run ends as that call does on them, with what it printed. *)
Theorem main_downloads_the_fleet `{Runtime} API_ENDPOINT FORMANT_EMAIL FORMANT_PASSWORD
    percentage fuel login_response query_response token items robots fleet :
  let start :=
    {| self := FormantClient_init API_ENDPOINT FORMANT_EMAIL FORMANT_PASSWORD; sent := [] |} in
  let query := devices_query_request API_ENDPOINT (bearer_headers token) (JObj []) false in
  http_post [] (login_request start) = Responded login_response ->
  status_code login_response = 200 ->
  access_token login_response = Some token ->
  http_post [login_request start] query = Responded query_response ->
  status_code query_response = 200 ->
  items_of query_response = Some items ->
  elements_of items = Some robots ->
  Forall2 (fun robot device => subscript robot "id" = inr (JStr device.1)) robots fleet ->
  fleet_served [login_request start; query] API_ENDPOINT (bearer_headers token) fleet ->
  Forall (fun device => (length device.2 <= fuel)%nat) fleet ->
  main API_ENDPOINT FORMANT_EMAIL FORMANT_PASSWORD percentage fuel
    = (match (process_task_reports percentage (fleet_reports fleet)).2 with
       | Some e => RaisedInReports e
       | None => Finished
       end,
       set_authenticated_headers (bearer_headers token)
         (record_requests
            (login_request start :: query
             :: fleet_requests API_ENDPOINT (bearer_headers token) fleet) start),
       [],
       (process_task_reports percentage (fleet_reports fleet)).1).
Proof.
  intros start query Hlogin Hok Htoken Hquery Hqok Hitems Helements Hids Hserved Hfuel.
  unfold main.
  rewrite (download_after_query _ _ _ _ _ _ _ _ Hlogin Hok Htoken Hquery Hqok Hitems
             Helements fuel).
  unfold bind at 1. rewrite (robot_ids_of_fleet _ _ _ Hids).
  rewrite download_fleet; [| apply bearer_headers_nonempty | exact Hserved | exact Hfuel].
  cbn [app]. by destruct (process_task_reports percentage (fleet_reports fleet)) as [printed [e |]].
Qed.

Lemma main_downloads_the_fleet_witness :
  let run := @main (sample_runtime two_device_backend) sample_endpoint "ops@example.com"
               "secret" (fun _ _ => "0.0") 3 in
  run.1.1.1 = RaisedInReports (NameError "task_report")
  /\ map url (sent run.1.1.2)
     = ["https://api.example/auth/login"; "https://api.example/devices/query";
        "https://api.example/events/query"; "https://api.example/events/query"].
Proof.
  intros run.
  pose (rt := sample_runtime two_device_backend).
  pose (fleet := [("dev-1", [[sample_report 0 0; sample_report 0 1; sample_report 0 0]]);
                  ("dev-2", [[sample_report 5 5]])]).
  pose (robots := [JObj [("id", JStr "dev-1")]; JObj [("id", JStr "dev-2")]]).
  assert (Hids : Forall2 (fun robot device => subscript robot "id" = inr (JStr device.1))
                   robots fleet) by repeat constructor.
  assert (Hserved : @fleet_served rt
                      [login_request fresh_world;
                       devices_query_request sample_endpoint
                         (@bearer_headers rt (JStr "t0k3n")) (JObj []) false]
                      sample_endpoint (@bearer_headers rt (JStr "t0k3n")) fleet).
  { split.
    { exists [], [sample_report 0 0; sample_report 0 1; sample_report 0 0].
      split; [reflexivity | split; [constructor | by vm_compute]]. }
    split.
    { split; [| exact I]. eexists. split; [by vm_compute | split; reflexivity]. }
    split.
    { exists [], [sample_report 5 5].
      split; [reflexivity | split; [constructor | by vm_compute]]. }
    split; [| exact I].
    split; [| exact I]. eexists. split; [by vm_compute | split; reflexivity]. }
  assert (Hfuel : Forall (fun device => (length device.2 <= 3)%nat) fleet)
    by (repeat constructor; cbn; lia).
  pose proof (@main_downloads_the_fleet rt sample_endpoint "ops@example.com" "secret"
                (fun _ _ => "0.0") 3 sample_login_response (items_response robots)
                (JStr "t0k3n") (JArr robots) robots fleet
                eq_refl eq_refl eq_refl eq_refl eq_refl eq_refl eq_refl Hids Hserved Hfuel)
    as Hrun.
  subst run rt robots fleet. rewrite Hrun. split; reflexivity.
Defined.
